(** * The go-fuse request pipeline: [fuse/request.go]

    A shallow embedding of the per-request state container of package
    [fuse] and of its methods [clear], [setInput], [parse],
    [serializeHeader] and [flatDataSize].

    Go slices are modelled as windows (array, offset, length, capacity)
    onto byte arrays, so that the inline arrays of the request and the
    buffers handed in by the transport keep their identity.  A method that
    can hit a run-time panic returns an [outcome]. *)

From Stdlib Require Import String.
From Stdlib Require Import ZArith List Bool Lia.
From Stdlib Require Import Strings.Byte.
Import ListNotations.
Open Scope Z_scope.

(* ================================================================= *)
(** ** Machine integers *)

(** Go's fixed-width integers, as [Z] with the wrap-around written out.
    [int] and [uintptr] are 64 bits wide (linux/amd64, linux/arm64). *)

Definition uwrap (w x : Z) : Z := x mod 2 ^ w.
Definition swrap (w x : Z) : Z := (x + 2 ^ (w - 1)) mod 2 ^ w - 2 ^ (w - 1).

Definition uint32 : Z -> Z := uwrap 32.
Definition int32 : Z -> Z := swrap 32.
Definition int : Z -> Z := swrap 64.
Definition uintptr : Z -> Z := uwrap 64.

(* ================================================================= *)
(** ** Bytes and little-endian fields *)

Definition byte_to_Z (b : byte) : Z := Z.of_N (Byte.to_N b).

Definition byte_of_Z (z : Z) : byte :=
  match Byte.of_N (Z.to_N (z mod 256)) with
  | Some b => b
  | None => x00
  end.

(** [le_encode n v]: the [n] low-order bytes of [v], least significant
    first (two's complement for a negative [v]). *)
Fixpoint le_encode (n : nat) (v : Z) : list byte :=
  match n with
  | O => []
  | S n' => byte_of_Z v :: le_encode n' (v / 256)
  end.

Fixpoint le_decode (bs : list byte) : Z :=
  match bs with
  | [] => 0
  | b :: bs' => byte_to_Z b + 256 * le_decode bs'
  end.

(* ================================================================= *)
(** ** Run-time failures *)

Inductive fault :=
| IndexOutOfRange        (* s[i] with i >= len(s) *)
| SliceBoundsOutOfRange  (* s[lo:hi] outside 0 <= lo <= hi <= cap(s) *)
| InvalidMemoryAccess.   (* an unsafe.Pointer access past its array *)

Inductive outcome (A : Type) :=
| Returns (a : A)
| Panics (f : fault).
Arguments Returns {A} a.
Arguments Panics {A} f.

Definition bind {A B : Type} (c : outcome A) (k : A -> outcome B) : outcome B :=
  match c with
  | Returns a => k a
  | Panics f => Panics f
  end.

Notation "x <- c ;; k" := (bind c (fun x => k))
  (at level 61, c at next level, right associativity).

(* ================================================================= *)
(** ** Slices *)

(** The byte arrays a request can refer to: its two inline arrays and the
    arrays allocated elsewhere (read buffers, pool buffers). *)
Inductive array_id :=
| OutBufArr
| SmallInputArr
| HeapArr (n : nat).

Inductive slice :=
| nil_slice
| Slice (a : array_id) (off len cap : nat).

Definition len (s : slice) : Z :=
  match s with
  | nil_slice => 0
  | Slice _ _ l _ => Z.of_nat l
  end.

Definition cap (s : slice) : Z :=
  match s with
  | nil_slice => 0
  | Slice _ _ _ c => Z.of_nat c
  end.

(** [s[lo:]] *)
Definition slice_from (s : slice) (lo : Z) : outcome slice :=
  if (0 <=? lo) && (lo <=? len s) then
    Returns match s with
            | nil_slice => nil_slice
            | Slice a o l c =>
                Slice a (o + Z.to_nat lo) (l - Z.to_nat lo) (c - Z.to_nat lo)
            end
  else Panics SliceBoundsOutOfRange.

(** [s[:hi]] *)
Definition slice_to (s : slice) (hi : Z) : outcome slice :=
  if (0 <=? hi) && (hi <=? cap s) then
    Returns match s with
            | nil_slice => nil_slice
            | Slice a o _ c => Slice a o (Z.to_nat hi) c
            end
  else Panics SliceBoundsOutOfRange.

(** [&s[0]] *)
Definition pointer : Type := array_id * nat.

Definition addr0 (s : slice) : outcome pointer :=
  match s with
  | nil_slice => Panics IndexOutOfRange
  | Slice a o l _ => if (l =? 0)%nat then Panics IndexOutOfRange else Returns (a, o)
  end.

(** [splice p bs mem]: [mem] with [bs] written at position [p]. *)
Definition splice (p : nat) (bs mem : list byte) : list byte :=
  firstn p mem ++ bs ++ skipn (p + length bs) mem.

(* ================================================================= *)
(** ** The opcode registry and the other declarations of package [fuse]
       that [request.go] uses *)

(** An entry of the registry; [InputSize] and [OutputSize] are [uintptr],
    [FileNames] is an [int].  [parse] compares [InputSize] with
    [len(r.inputBuf)] and cuts [r.inputBuf[inSz:]], and the input records
    are read at [&r.inputBuf[0]]: [InputSize] counts from the start of the
    frame, the in-header included. *)
Record operationHandler := mkHandler {
  InputSize : Z;
  OutputSize : Z;
  FileNames : Z;
  FileNameOut : bool
}.

(** Modelled from the spec: the negotiated kernel settings (the type
    [InitIn] is declared outside [request.go]).  [parse] consults them
    only through [supportsRenameSwap]. *)
Record InitIn := mkInitIn {
  supportsRenameSwap : bool
}.

(** Modelled from the spec: [readResultFd] is declared outside
    [request.go]; it stands for a range of a file descriptor and [Size]
    is the number of bytes of that range. *)
Record readResultFd := mkReadResultFd {
  Fd : Z;
  Off : Z;
  Sz : Z
}.

Definition Size (r : readResultFd) : Z := Sz r.

(** Modelled from the spec: [InHeader] is
    [{length u32, opcode u32, unique u64, nodeId u64, uid u32, gid u32,
    pid u32, padding u32}], little-endian, 40 bytes. *)
Definition sizeOfInHeader : Z := 40.
Definition InHeader_Opcode_offset : nat := 4.
Definition InHeader_Unique_offset : nat := 8.

(** Modelled from the spec: [OutHeader] is
    [{length u32, status i32, unique u64}], little-endian, 16 bytes. *)
Definition sizeOfOutHeader : Z := 16.
Definition OutHeader_Length_offset : nat := 0.
Definition OutHeader_Status_offset : nat := 4.
Definition OutHeader_Unique_offset : nat := 8.

(** Modelled from the spec: the input record of GETXATTR and LISTXATTR
    starts, right after the in-header, with the 32-bit [Size] field. *)
Definition GetXAttrIn_Size_offset : nat := 40.

(** Modelled from the spec: the status of success is 0; failures are
    positive error numbers. *)
Definition OK : Z := 0.

(** The constants and the table that [request.go] takes from the rest of
    the package. *)
Class Package := {
  getHandler : Z -> option operationHandler;
  outputHeaderSize : nat;
  _OP_RENAME : Z;
  _OP_INIT : Z;
  _OP_SETXATTR : Z;
  _OP_GETXATTR : Z;
  _OP_LISTXATTR : Z;
  sizeOfRenameIn : Z;      (* unsafe.Sizeof(RenameIn{}) *)
  ENOSYS : Z;
  EIO : Z
}.

(** [len(r.smallInputBuf)] *)
Definition smallInputBufSize : nat := 128.

(* ================================================================= *)
(** ** The request *)

Record request := mkRequest {
  inflightIndex : Z;
  cancel : option nat;           (* chan struct{}; [None] is the nil channel *)
  interrupted : bool;
  inputBuf : slice;
  outputBuf : slice;
  arg : slice;
  filenames : option (list string);   (* [None] is the nil slice *)
  status : Z;                    (* Status, an int32 *)
  flatData : slice;
  fdData : option readResultFd;  (* *readResultFd *)
  readResult : option nat;       (* ReadResult, an interface value *)
  startTime : Z;                 (* time.Time; 0 is the zero time *)
  bufferPoolInputBuf : slice;
  bufferPoolOutputBuf : slice;
  outBuf : list byte;            (* [outputHeaderSize]byte *)
  smallInputBuf : list byte      (* [128]byte *)
}.

(** A request together with the arrays that live outside of it. *)
Record state := mkState {
  heap : list (list byte);
  req : request
}.

Definition with_req (f : request -> request) (st : state) : state :=
  mkState (heap st) (f (req st)).

Definition set_inputBuf (v : slice) : state -> state :=
  with_req (fun r =>
    mkRequest (inflightIndex r) (cancel r) (interrupted r) v (outputBuf r)
      (arg r) (filenames r) (status r) (flatData r) (fdData r) (readResult r)
      (startTime r) (bufferPoolInputBuf r) (bufferPoolOutputBuf r)
      (outBuf r) (smallInputBuf r)).

Definition set_outputBuf (v : slice) : state -> state :=
  with_req (fun r =>
    mkRequest (inflightIndex r) (cancel r) (interrupted r) (inputBuf r) v
      (arg r) (filenames r) (status r) (flatData r) (fdData r) (readResult r)
      (startTime r) (bufferPoolInputBuf r) (bufferPoolOutputBuf r)
      (outBuf r) (smallInputBuf r)).

Definition set_arg (v : slice) : state -> state :=
  with_req (fun r =>
    mkRequest (inflightIndex r) (cancel r) (interrupted r) (inputBuf r)
      (outputBuf r) v (filenames r) (status r) (flatData r) (fdData r)
      (readResult r) (startTime r) (bufferPoolInputBuf r)
      (bufferPoolOutputBuf r) (outBuf r) (smallInputBuf r)).

Definition set_filenames (v : option (list string)) : state -> state :=
  with_req (fun r =>
    mkRequest (inflightIndex r) (cancel r) (interrupted r) (inputBuf r)
      (outputBuf r) (arg r) v (status r) (flatData r) (fdData r)
      (readResult r) (startTime r) (bufferPoolInputBuf r)
      (bufferPoolOutputBuf r) (outBuf r) (smallInputBuf r)).

Definition set_status (v : Z) : state -> state :=
  with_req (fun r =>
    mkRequest (inflightIndex r) (cancel r) (interrupted r) (inputBuf r)
      (outputBuf r) (arg r) (filenames r) v (flatData r) (fdData r)
      (readResult r) (startTime r) (bufferPoolInputBuf r)
      (bufferPoolOutputBuf r) (outBuf r) (smallInputBuf r)).

Definition set_bufferPoolInputBuf (v : slice) : state -> state :=
  with_req (fun r =>
    mkRequest (inflightIndex r) (cancel r) (interrupted r) (inputBuf r)
      (outputBuf r) (arg r) (filenames r) (status r) (flatData r) (fdData r)
      (readResult r) (startTime r) v (bufferPoolOutputBuf r)
      (outBuf r) (smallInputBuf r)).

(** *** Memory *)

Definition array_of (st : state) (a : array_id) : list byte :=
  match a with
  | OutBufArr => outBuf (req st)
  | SmallInputArr => smallInputBuf (req st)
  | HeapArr n => nth n (heap st) []
  end.

Fixpoint update_nth {A : Type} (n : nat) (v : A) (l : list A) : list A :=
  match n, l with
  | _, [] => []
  | O, _ :: l' => v :: l'
  | S n', x :: l' => x :: update_nth n' v l'
  end.

Definition set_array (a : array_id) (data : list byte) (st : state) : state :=
  match a with
  | OutBufArr =>
      with_req (fun r =>
        mkRequest (inflightIndex r) (cancel r) (interrupted r) (inputBuf r)
          (outputBuf r) (arg r) (filenames r) (status r) (flatData r)
          (fdData r) (readResult r) (startTime r) (bufferPoolInputBuf r)
          (bufferPoolOutputBuf r) data (smallInputBuf r)) st
  | SmallInputArr =>
      with_req (fun r =>
        mkRequest (inflightIndex r) (cancel r) (interrupted r) (inputBuf r)
          (outputBuf r) (arg r) (filenames r) (status r) (flatData r)
          (fdData r) (readResult r) (startTime r) (bufferPoolInputBuf r)
          (bufferPoolOutputBuf r) (outBuf r) data) st
  | HeapArr n => mkState (update_nth n data (heap st)) (req st)
  end.

(** An array that exists in the state. *)
Definition allocated (st : state) (a : array_id) : Prop :=
  match a with
  | HeapArr n => (n < List.length (heap st))%nat
  | _ => True
  end.

(** The fields of the request that are not arrays. *)
Definition fields (r : request) :=
  (inflightIndex r, cancel r, interrupted r, inputBuf r, outputBuf r, arg r,
   filenames r, status r, flatData r, fdData r, readResult r, startTime r,
   bufferPoolInputBuf r, bufferPoolOutputBuf r).

(** The bytes a slice shows. *)
Definition bytes_of (st : state) (s : slice) : list byte :=
  match s with
  | nil_slice => []
  | Slice a o l _ => firstn l (skipn o (array_of st a))
  end.

(** Reading [n] bytes at [p + k] through an [unsafe.Pointer]: the length
    of the slice the pointer came from plays no role, only the array. *)
Definition load (st : state) (p : pointer) (k n : nat) : outcome (list byte) :=
  let mem := array_of st (fst p) in
  if (snd p + k + n <=? length mem)%nat
  then Returns (firstn n (skipn (snd p + k) mem))
  else Panics InvalidMemoryAccess.

Definition load_uint (st : state) (p : pointer) (k n : nat) : outcome Z :=
  bs <- load st p k n ;; Returns (le_decode bs).

(** Writing through an [unsafe.Pointer]. *)
Definition store (st : state) (p : pointer) (k : nat) (bs : list byte)
  : outcome state :=
  let mem := array_of st (fst p) in
  if (snd p + k + length bs <=? length mem)%nat
  then Returns (set_array (fst p) (splice (snd p + k) bs mem) st)
  else Panics InvalidMemoryAccess.

(** The builtin [copy(dst, src)], with the bytes of [src] read first. *)
Definition copy (st : state) (dst : slice) (src : list byte) : state :=
  match dst with
  | nil_slice => st
  | Slice a o l _ =>
      set_array a (splice o (firstn (Nat.min l (length src)) src) (array_of st a)) st
  end.

(* ================================================================= *)
(** ** [bytes.SplitN] with a one-byte separator *)

(** [bytes.IndexByte] *)
Fixpoint IndexByte (s : list byte) (sep : byte) : option nat :=
  match s with
  | [] => None
  | b :: s' =>
      if Byte.eqb b sep then Some O
      else match IndexByte s' sep with
           | Some m => Some (S m)
           | None => None
           end
  end.

Fixpoint count_byte (s : list byte) (sep : byte) : nat :=
  match s with
  | [] => O
  | b :: s' => (if Byte.eqb b sep then 1 else 0) + count_byte s' sep
  end.

(** The loop of [genSplit]: cut at most [k] times, then keep the rest. *)
Fixpoint split_loop (k : nat) (s : list byte) (sep : byte) : list (list byte) :=
  match k with
  | O => [s]
  | S k' =>
      match IndexByte s sep with
      | None => [s]
      | Some m => firstn m s :: split_loop k' (skipn (S m) s) sep
      end
  end.

Definition SplitN (s : list byte) (sep : byte) (n : Z) : list (list byte) :=
  if n =? 0 then []
  else
    let n := if n <? 0 then Z.of_nat (count_byte s sep) + 1 else n in
    let n := if n >? Z.of_nat (length s) + 1 then Z.of_nat (length s) + 1 else n in
    split_loop (Z.to_nat (n - 1)) s sep.

(* ================================================================= *)
(** ** Methods of the request *)

Section Methods.
Context `{Package}.

(** [r.inData()]: [unsafe.Pointer(&r.inputBuf[0])] *)
Definition inData (st : state) : outcome pointer := addr0 (inputBuf (req st)).

(** [r.inHeader()]: the same address, seen as an [*InHeader] *)
Definition inHeader (st : state) : outcome pointer := inData st.

Definition inHeader_Opcode (st : state) : outcome Z :=
  p <- inHeader st ;; load_uint st p InHeader_Opcode_offset 4.

Definition inHeader_Unique (st : state) : outcome Z :=
  p <- inHeader st ;; load_uint st p InHeader_Unique_offset 8.

(** [( *GetXAttrIn)(r.inData()).Size] *)
Definition GetXAttrIn_Size (st : state) : outcome Z :=
  p <- inData st ;; load_uint st p GetXAttrIn_Size_offset 4.

(** [r.outHeader()]: [unsafe.Pointer(&r.outputBuf[0])] as an [*OutHeader] *)
Definition outHeader (st : state) : outcome pointer := addr0 (outputBuf (req st)).

Definition clear (r : request) : request :=
  mkRequest (inflightIndex r) (cancel r) (interrupted r)
    nil_slice            (* r.inputBuf = nil *)
    nil_slice            (* r.outputBuf = nil *)
    nil_slice            (* r.arg = nil *)
    None                 (* r.filenames = nil *)
    OK                   (* r.status = OK *)
    nil_slice            (* r.flatData = nil *)
    None                 (* r.fdData = nil *)
    None                 (* r.readResult = nil *)
    0                    (* r.startTime = time.Time{} *)
    (bufferPoolInputBuf r) (bufferPoolOutputBuf r)
    (outBuf r) (smallInputBuf r).

(** [setInput] returns true if it takes ownership of the argument. *)
Definition setInput (input : slice) (st : state) : state * bool :=
  if len input <? Z.of_nat smallInputBufSize then
    let st := copy st (Slice SmallInputArr 0 smallInputBufSize smallInputBufSize)
                   (bytes_of st input) in
    (set_inputBuf (Slice SmallInputArr 0 (Z.to_nat (len input)) smallInputBufSize) st,
     false)
  else
    let st := set_inputBuf input st in
    (set_bufferPoolInputBuf
       match input with
       | nil_slice => nil_slice
       | Slice a o _ c => Slice a o c c     (* input[:cap(input)] *)
       end st,
     true).

Definition string_of_bytes (bs : list byte) : string := string_of_list_byte bs.

(** The filename part of [parse] (lines 212-232), for [count > 0]. *)
Definition parse_filenames (opcode count : Z) (st : state) : outcome state :=
  let a := arg (req st) in
  if (count =? 1) && (opcode =? _OP_SETXATTR) then
    match SplitN (bytes_of st a) x00 2 with
    | [] => Panics IndexOutOfRange
    | s0 :: _ => Returns (set_filenames (Some [string_of_bytes s0]) st)
    end
  else if count =? 1 then
    a1 <- slice_to a (len a - 1) ;;
    Returns (set_filenames (Some [string_of_bytes (bytes_of st a1)]) st)
  else
    a1 <- slice_to a (len a - 1) ;;
    let names := SplitN (bytes_of st a1) x00 count in
    let st := set_filenames (Some (map string_of_bytes names)) st in
    Returns (if negb (Z.of_nat (length names) =? count)
             then set_status EIO st
             else st).

(** [parse].  The source reads [r.inHeader().Opcode] anew at each test;
    nothing is written to [inputBuf] or to its array in between, so the
    opcode is read once here. *)
Definition parse (kernelSettings : InitIn) (st : state) : outcome state :=
  opcode <- inHeader_Opcode st ;;
  match getHandler opcode with
  | None => Returns (set_status ENOSYS st)
  | Some h =>
      let inSz := int (InputSize h) in
      let inSz :=
        if (opcode =? _OP_RENAME) && supportsRenameSwap kernelSettings
        then int sizeOfRenameIn else inSz in
      let inSz :=
        if (opcode =? _OP_INIT) && (inSz >? len (arg (req st)))
        then len (inputBuf (req st)) else inSz in
      if len (inputBuf (req st)) <? inSz then Returns (set_status EIO st)
      else
        a <- (if InputSize h >? 0
              then slice_from (inputBuf (req st)) inSz
              else slice_from (inputBuf (req st)) sizeOfInHeader) ;;
        let st := set_arg a st in
        let count := FileNames h in
        st <- (if count >? 0 then parse_filenames opcode count st
               else Returns st) ;;
        ob <- slice_to (Slice OutBufArr 0 outputHeaderSize outputHeaderSize)
                       (uintptr (OutputSize h + sizeOfOutHeader)) ;;
        let st := set_outputBuf ob st in
        Returns (copy st ob (repeat x00 outputHeaderSize))
  end.

(** The value of [dataLength] when [serializeHeader] reaches line 266. *)
Definition dataLength (st : state) : outcome Z :=
  opcode <- inHeader_Opcode st ;;
  let dataLength :=
    match getHandler opcode with
    | Some h => OutputSize h
    | None => 0
    end in
  let dataLength := if status (req st) >? OK then 0 else dataLength in
  if (opcode =? _OP_GETXATTR) || (opcode =? _OP_LISTXATTR) then
    sz <- GetXAttrIn_Size st ;;
    Returns (if negb (sz =? 0) then 0 else dataLength)
  else Returns dataLength.

Definition serializeHeader (flatDataSize : Z) (st : state) : outcome state :=
  dataLength <- dataLength st ;;
  o <- outHeader st ;;
  unique <- inHeader_Unique st ;;
  st <- store st o OutHeader_Unique_offset (le_encode 8 unique) ;;
  st <- store st o OutHeader_Status_offset
              (le_encode 4 (int32 (- status (req st)))) ;;
  st <- store st o OutHeader_Length_offset
              (le_encode 4 (uint32 (int (int (int sizeOfOutHeader + int dataLength)
                                         + flatDataSize)))) ;;
  ob <- slice_to (outputBuf (req st)) (uintptr (dataLength + sizeOfOutHeader)) ;;
  Returns (set_outputBuf ob st).

Definition flatDataSize (r : request) : Z :=
  match fdData r with
  | Some fd => Size fd
  | None => len (flatData r)
  end.

(** *** Reading the reply *)

Record OutHeader := mkOutHeader {
  Length : Z;
  Status : Z;
  Unique : Z
}.

(** The out-header as the transport finds it at the head of [outputBuf]. *)
Definition reply_header (st : state) : outcome OutHeader :=
  o <- outHeader st ;;
  l <- load_uint st o OutHeader_Length_offset 4 ;;
  s <- load_uint st o OutHeader_Status_offset 4 ;;
  u <- load_uint st o OutHeader_Unique_offset 8 ;;
  Returns (mkOutHeader l (int32 s) u).

End Methods.

(* ================================================================= *)
(** ** Vocabulary of the statements *)

(** What neither [parse] nor [serializeHeader] assigns: the frame, the
    reply payload, the bookkeeping, the pool buffers and the inline input
    array. *)
Definition untouched_by_parse (r : request) :=
  (inflightIndex r, cancel r, interrupted r, inputBuf r, flatData r,
   fdData r, readResult r, startTime r, bufferPoolInputBuf r,
   bufferPoolOutputBuf r, smallInputBuf r).

(** The array behind a slice. *)
Definition array_behind (s : slice) : option array_id :=
  match s with
  | nil_slice => None
  | Slice a _ _ _ => Some a
  end.

(** The structured length in the words of the spec (4.6, steps 1 to 3):
    the output-record size of the registry entry, 0 without an entry, 0 on
    a failure status, 0 for GETXATTR and LISTXATTR with a nonzero [Size]. *)
Definition structured_length `{Package} (opcode status size : Z) : Z :=
  if status >? OK then 0
  else if ((opcode =? _OP_GETXATTR) || (opcode =? _OP_LISTXATTR))
          && negb (size =? 0) then 0
  else match getHandler opcode with
       | Some h => OutputSize h
       | None => 0
       end.

(** The size [parse] compares the frame with (lines 192-195), before the
    INIT adjustment of lines 196-199. *)
Definition expected_size `{Package} (kernelSettings : InitIn) (opcode : Z)
           (h : operationHandler) : Z :=
  if (opcode =? _OP_RENAME) && supportsRenameSwap kernelSettings
  then int sizeOfRenameIn else int (InputSize h).

(** What a handler leaves in the request: a status and a reply payload
    (flat bytes, or a range of a file descriptor). *)
Definition handler_reply (s : Z) (flat : slice) (fd : option readResultFd)
  : state -> state :=
  with_req (fun r =>
    mkRequest (inflightIndex r) (cancel r) (interrupted r) (inputBuf r)
      (outputBuf r) (arg r) (filenames r) s flat fd (readResult r)
      (startTime r) (bufferPoolInputBuf r) (bufferPoolOutputBuf r)
      (outBuf r) (smallInputBuf r)).

(* ================================================================= *)
(** ** Concrete inputs *)

(** A registry with entries shaped like those of the Linux FUSE ABI
    (sizes of the input records include the in-header, as the records of
    package [fuse] embed it).  The table itself is declared outside
    [request.go]; this instance serves the closed examples below. *)
Definition abi_handlers (opcode : Z) : option operationHandler :=
  match opcode with
  | 1 => Some (mkHandler 0 128 1 false)     (* LOOKUP: a name; EntryOut *)
  | 3 => Some (mkHandler 56 104 0 false)    (* GETATTR: GetAttrIn; AttrOut *)
  | 5 => Some (mkHandler 0 0 0 true)        (* READLINK: flat file name out *)
  | 12 => Some (mkHandler 48 0 2 false)     (* RENAME: Rename1In; two names *)
  | 15 => Some (mkHandler 80 0 0 false)     (* READ: ReadIn; flat or fd data *)
  | 21 => Some (mkHandler 48 0 1 false)     (* SETXATTR: SetXAttrIn; name, value *)
  | 22 => Some (mkHandler 48 8 1 false)     (* GETXATTR: GetXAttrIn; GetXAttrOut *)
  | 23 => Some (mkHandler 48 8 0 false)     (* LISTXATTR: GetXAttrIn; GetXAttrOut *)
  | 26 => Some (mkHandler 104 64 0 false)   (* INIT: InitIn; InitOut *)
  | 38 => Some (mkHandler 0 0 0 false)      (* DESTROY *)
  | _ => None
  end.

Definition linux_abi : Package := {|
  getHandler := abi_handlers;
  outputHeaderSize := 160;
  _OP_RENAME := 12;
  _OP_INIT := 26;
  _OP_SETXATTR := 21;
  _OP_GETXATTR := 22;
  _OP_LISTXATTR := 23;
  sizeOfRenameIn := 56;
  ENOSYS := 38;
  EIO := 5
|}.

(** The zero value of [request]. *)
Definition new_request `{Package} : request :=
  mkRequest 0 None false nil_slice nil_slice nil_slice None 0 nil_slice
    None None 0 nil_slice nil_slice
    (repeat x00 outputHeaderSize) (repeat x00 smallInputBufSize).

Definition encode_InHeader (length opcode unique nodeId uid gid pid : Z)
  : list byte :=
  le_encode 4 length ++ le_encode 4 opcode ++ le_encode 8 unique ++
  le_encode 8 nodeId ++ le_encode 4 uid ++ le_encode 4 gid ++
  le_encode 4 pid ++ le_encode 4 0.

(** A frame: the in-header, whose length field covers the whole frame,
    followed by [payload]; node 1, uid 0, gid 0, pid 1. *)
Definition frame_of (opcode unique : Z) (payload : list byte) : list byte :=
  encode_InHeader (40 + Z.of_nat (List.length payload)) opcode unique 1 0 0 1
    ++ payload.

(** The state in which a new request has been given [frame], read into a
    buffer of its own. *)
Definition arrival `{Package} (frame : list byte) : state :=
  fst (setInput (Slice (HeapArr 0) 0 (List.length frame) (List.length frame))
                (mkState [frame] new_request)).

(** The settings of a kernel that knows rename-swap. *)
Definition modern_kernel : InitIn := mkInitIn true.

(** *** Frames and states of the examples *)

Definition returned (o : outcome state) (otherwise : state) : state :=
  match o with
  | Returns st => st
  | Panics _ => otherwise
  end.

(** The state after [parse] of a new request that was given [frame]. *)
Definition parsed `{Package} (ks : InitIn) (frame : list byte) : state :=
  returned (parse ks (arrival frame)) (arrival frame).

(** The data flow of the pipeline for one frame: [setInput], [parse], a
    handler that leaves [s], [flat] and [fd], then
    [serializeHeader(flatDataSize())]; the result is the out-header of
    the reply. *)
Definition serve `{Package} (ks : InitIn) (frame : list byte)
           (handler : state -> state) : outcome OutHeader :=
  st <- parse ks (arrival frame) ;;
  let st := handler st in
  st <- serializeHeader (flatDataSize (req st)) st ;;
  reply_header st.

(** GETATTR, unique 7, with a zeroed [GetAttrIn]. *)
Definition getattr_frame : list byte := frame_of 3 7 (repeat x00 16).

(** READ, unique 7, with a zeroed [ReadIn]. *)
Definition read_frame : list byte := frame_of 15 7 (repeat x00 40).

(** LOOKUP, unique 7, with nothing after the in-header. *)
Definition lookup_frame_without_name : list byte := frame_of 1 7 [].

(** Opcode 0xFFFF, unique 7. *)
Definition unknown_frame : list byte := frame_of 65535 7 [].

(** SETXATTR of "user.foo" to four bytes (scenario S2 of the spec). *)
Definition setxattr_frame : list byte :=
  frame_of 21 7 (repeat x00 8 ++ list_byte_of_string "user.foo"
                 ++ [x00; x01; x02; x03; x04]).

(** GETXATTR of "user.foo" with [Size] 0 (S5) and with [Size] 128 (S6). *)
Definition getxattr_frame (size : Z) : list byte :=
  frame_of 22 7 (le_encode 4 size ++ le_encode 4 0
                 ++ list_byte_of_string "user.foo" ++ [x00]).

(** INIT with an [InitIn] of 16 bytes (an old kernel) and with one that is
    8 bytes longer than the 64 bytes of the registry. *)
Definition init_frame_short : list byte := frame_of 26 7 (repeat x00 16).
Definition init_frame_long : list byte := frame_of 26 7 (repeat x00 72).

(** RENAME of "a" to "b" with the [RenameIn] of rename-swap. *)
Definition rename_frame : list byte :=
  frame_of 12 7 (repeat x00 16 ++ list_byte_of_string "a" ++ [x00]
                 ++ list_byte_of_string "b" ++ [x00]).

(** ENODATA, the status of a GETXATTR for an attribute that is not there. *)
Definition ENODATA : Z := 61.

(* ================================================================= *)
(** ** Further accessors and vocabulary *)

(** [&s[i]] *)
Definition addr_at (s : slice) (i : Z) : outcome pointer :=
  match s with
  | nil_slice => Panics IndexOutOfRange
  | Slice a o l _ =>
      if (0 <=? i) && (i <? Z.of_nat l)
      then Returns (a, (o + Z.to_nat i)%nat)
      else Panics IndexOutOfRange
  end.

(** [r.outData()]: [unsafe.Pointer(&r.outputBuf[sizeOfOutHeader])] *)
Definition outData (st : state) : outcome pointer :=
  addr_at (outputBuf (req st)) sizeOfOutHeader.

(** The pieces put together again, with [sep] between them. *)
Fixpoint join (sep : byte) (pieces : list (list byte)) : list byte :=
  match pieces with
  | [] => []
  | p :: rest =>
      match rest with
      | [] => p
      | _ :: _ => p ++ sep :: join sep rest
      end
  end.

(** The slice [r.outBuf[:n]] that [parse] makes [outputBuf]. *)
Definition outBuf_prefix `{Package} (n : Z) : slice :=
  Slice OutBufArr 0 (Z.to_nat n) outputHeaderSize.

(** Every field of the request but [outputBuf] and the two inline
    arrays. *)
Definition all_but_outputBuf (r : request) :=
  (inflightIndex r, cancel r, interrupted r, inputBuf r, arg r, filenames r,
   status r, flatData r, fdData r, readResult r, startTime r,
   bufferPoolInputBuf r, bufferPoolOutputBuf r).

(** From [st] to [st'] nothing was written but bytes of array [a] at the
    positions from [lo] up to, and without, [hi]. *)
Definition writes_within (a : array_id) (lo hi : nat) (st st' : state) : Prop :=
  fields (req st') = fields (req st) /\
  (forall b, b <> a -> array_of st' b = array_of st b) /\
  List.length (array_of st' a) = List.length (array_of st a) /\
  firstn lo (array_of st' a) = firstn lo (array_of st a) /\
  skipn hi (array_of st' a) = skipn hi (array_of st a).

(** *** More frames *)

(** LOOKUP of "hello", unique 7. *)
Definition lookup_frame : list byte :=
  frame_of 1 7 (list_byte_of_string "hello" ++ [x00]).


(** SETXATTR of "user.foo" with neither NUL nor value. *)
Definition setxattr_frame_without_NUL : list byte :=
  frame_of 21 7 (repeat x00 8 ++ list_byte_of_string "user.foo").

(** A READ frame padded to 200 bytes, in a buffer of its own. *)
Definition large_frame : list byte := frame_of 15 7 (repeat x00 160).

(* ================================================================= *)
(** * Properties *)

(** ** Integers and bytes *)

Lemma uint32_int (x : Z) : uint32 (int x) = uint32 x.
Proof.
  unfold uint32, int, uwrap, swrap.
  change (2 ^ 64) with (2 ^ 32 * 2 ^ 32).
  change (2 ^ (64 - 1)) with (2 ^ 32 * 2 ^ 31).
  set (m := 2 ^ 32) in *.
  assert (Hm : 0 < m) by (subst m; reflexivity).
  rewrite Z.rem_mul_r by lia.
  replace ((x + m * 2 ^ 31) mod m + m * (((x + m * 2 ^ 31) / m) mod m)
           - m * 2 ^ 31)
    with ((x + m * 2 ^ 31) mod m
          + (((x + m * 2 ^ 31) / m) mod m - 2 ^ 31) * m) by ring.
  rewrite Z.mod_add by lia.
  rewrite Z.mod_mod by lia.
  replace (x + m * 2 ^ 31) with (x + 2 ^ 31 * m) by ring.
  now rewrite Z.mod_add by lia.
Qed.

Lemma int_eqm (x : Z) : exists k, int x = x + k * 2 ^ 64.
Proof.
  unfold int, swrap.
  exists (- ((x + 2 ^ (64 - 1)) / 2 ^ 64)).
  pose proof (Z.div_mod (x + 2 ^ (64 - 1)) (2 ^ 64)) as E.
  assert (2 ^ 64 <> 0) by (intro Hc; discriminate Hc).
  specialize (E ltac:(assumption)). lia.
Qed.

Lemma int_small (x : Z) : - 2 ^ 63 <= x < 2 ^ 63 -> int x = x.
Proof.
  intros Hx. unfold int, swrap. change (2 ^ (64 - 1)) with (2 ^ 63).
  rewrite Z.mod_small; [lia|]. change (2 ^ 64) with (2 ^ 63 + 2 ^ 63). lia.
Qed.

Lemma uintptr_small (x : Z) : 0 <= x < 2 ^ 64 -> uintptr x = x.
Proof. intros Hx. unfold uintptr, uwrap. now apply Z.mod_small. Qed.

(** The length field: the three [int] additions followed by the
    conversion to [uint32] keep the sum modulo [2^32]. *)
Lemma length_field (a b c : Z) :
  uint32 (int (int (int a + int b) + c)) = uint32 (a + b + c).
Proof.
  rewrite uint32_int.
  destruct (int_eqm a) as [ka Ha], (int_eqm b) as [kb Hb].
  destruct (int_eqm (int a + int b)) as [kc Hc].
  rewrite Hc, Ha, Hb. unfold uint32, uwrap.
  replace (a + ka * 2 ^ 64 + (b + kb * 2 ^ 64) + kc * 2 ^ 64 + c)
    with (a + b + c + ((ka + kb + kc) * 2 ^ 32) * 2 ^ 32).
  - apply Z.mod_add. intro Hz; discriminate Hz.
  - change (2 ^ 64) with (2 ^ 32 * 2 ^ 32). ring.
Qed.

Lemma int32_uint32 (x : Z) : int32 (uint32 x) = int32 x.
Proof.
  unfold int32, uint32, swrap, uwrap. change (32 - 1) with 31.
  rewrite Zplus_mod_idemp_l. reflexivity.
Qed.

Lemma int32_idem (x : Z) : int32 (int32 x) = int32 x.
Proof.
  unfold int32, swrap. change (32 - 1) with 31.
  replace ((x + 2 ^ 31) mod 2 ^ 32 - 2 ^ 31 + 2 ^ 31)
    with ((x + 2 ^ 31) mod 2 ^ 32) by ring.
  now rewrite Zmod_mod.
Qed.

Lemma int32_small (x : Z) : - 2 ^ 31 <= x < 2 ^ 31 -> int32 x = x.
Proof.
  intros Hx. unfold int32, swrap. change (2 ^ (32 - 1)) with (2 ^ 31).
  rewrite Z.mod_small; [lia|]. change (2 ^ 32) with (2 ^ 31 + 2 ^ 31). lia.
Qed.

Lemma byte_to_Z_range (b : byte) : 0 <= byte_to_Z b < 256.
Proof.
  unfold byte_to_Z. pose proof (Byte.to_N_bounded b). lia.
Qed.

Lemma byte_to_of_Z (z : Z) : byte_to_Z (byte_of_Z z) = z mod 256.
Proof.
  unfold byte_to_Z, byte_of_Z.
  pose proof (Z.mod_pos_bound z 256 eq_refl) as Hr.
  destruct (Byte.of_N (Z.to_N (z mod 256))) as [b|] eqn:E.
  - apply Byte.to_of_N in E. rewrite E. lia.
  - apply Byte.of_N_None_iff in E. lia.
Qed.

Lemma le_encode_length (n : nat) (v : Z) : List.length (le_encode n v) = n.
Proof.
  revert v. induction n as [|n IH]; intros v; simpl; [reflexivity|].
  now rewrite IH.
Qed.

Lemma le_decode_encode (n : nat) (v : Z) :
  le_decode (le_encode n v) = v mod 2 ^ (8 * Z.of_nat n).
Proof.
  revert v. induction n as [|n IH]; intros v.
  - simpl. now rewrite Z.mod_1_r.
  - cbn [le_encode le_decode]. rewrite IH, byte_to_of_Z.
    replace (8 * Z.of_nat (S n)) with (8 + 8 * Z.of_nat n) by lia.
    rewrite Z.pow_add_r by lia. change (2 ^ 8) with 256.
    rewrite Z.rem_mul_r; [reflexivity|lia|].
    apply Z.pow_pos_nonneg; lia.
Qed.

Lemma le_decode_range (bs : list byte) :
  0 <= le_decode bs < 2 ^ (8 * Z.of_nat (List.length bs)).
Proof.
  induction bs as [|b bs IH].
  - simpl. lia.
  - cbn [le_decode List.length].
    replace (8 * Z.of_nat (S (List.length bs)))
      with (8 + 8 * Z.of_nat (List.length bs)) by lia.
    rewrite Z.pow_add_r by lia. change (2 ^ 8) with 256.
    pose proof (byte_to_Z_range b). nia.
Qed.

(** ** Writing into an array and reading it back *)

Lemma nth_error_splice (p : nat) (bs mem : list byte) (i : nat) :
  (p + List.length bs <= List.length mem)%nat ->
  nth_error (splice p bs mem) i =
  if (i <? p)%nat then nth_error mem i
  else if (i <? p + List.length bs)%nat then nth_error bs (i - p)
  else nth_error mem i.
Proof.
  intros Hfit. unfold splice.
  assert (Hp : List.length (firstn p mem) = p) by (apply firstn_length_le; lia).
  rewrite nth_error_app, Hp.
  destruct (i <? p)%nat eqn:E1.
  - rewrite nth_error_firstn, E1. reflexivity.
  - apply Nat.ltb_ge in E1. rewrite nth_error_app.
    destruct (i <? p + List.length bs)%nat eqn:E2.
    + apply Nat.ltb_lt in E2.
      replace (i - p <? List.length bs)%nat with true
        by (symmetry; apply Nat.ltb_lt; lia).
      reflexivity.
    + apply Nat.ltb_ge in E2.
      replace (i - p <? List.length bs)%nat with false
        by (symmetry; apply Nat.ltb_ge; lia).
      rewrite nth_error_skipn. f_equal. lia.
Qed.

Lemma splice_length (p : nat) (bs mem : list byte) :
  (p + List.length bs <= List.length mem)%nat ->
  List.length (splice p bs mem) = List.length mem.
Proof.
  intros Hfit. unfold splice.
  rewrite !length_app, length_skipn, firstn_length_le by lia. lia.
Qed.

Lemma window_splice_same (p : nat) (bs mem : list byte) :
  (p + List.length bs <= List.length mem)%nat ->
  firstn (List.length bs) (skipn p (splice p bs mem)) = bs.
Proof.
  intros Hfit. apply nth_error_ext. intros i.
  rewrite nth_error_firstn, nth_error_skipn, nth_error_splice by assumption.
  destruct (i <? List.length bs)%nat eqn:E.
  - apply Nat.ltb_lt in E.
    replace (p + i <? p)%nat with false by (symmetry; apply Nat.ltb_ge; lia).
    replace (p + i <? p + List.length bs)%nat with true
      by (symmetry; apply Nat.ltb_lt; lia).
    f_equal. lia.
  - apply Nat.ltb_ge in E. symmetry. now apply nth_error_None.
Qed.

Lemma window_splice_other (p q n : nat) (bs mem : list byte) :
  (p + List.length bs <= List.length mem)%nat ->
  (q + n <= p \/ p + List.length bs <= q)%nat ->
  firstn n (skipn q (splice p bs mem)) = firstn n (skipn q mem).
Proof.
  intros Hfit Hdisj. apply nth_error_ext. intros i.
  rewrite !nth_error_firstn, !nth_error_skipn, nth_error_splice by assumption.
  destruct (i <? n)%nat eqn:E; [|reflexivity].
  apply Nat.ltb_lt in E.
  destruct Hdisj as [Hb|Ha].
  - replace (q + i <? p)%nat with true by (symmetry; apply Nat.ltb_lt; lia).
    reflexivity.
  - replace (q + i <? p)%nat with false by (symmetry; apply Nat.ltb_ge; lia).
    replace (q + i <? p + List.length bs)%nat with false
      by (symmetry; apply Nat.ltb_ge; lia).
    reflexivity.
Qed.

(** ** The arrays of a state *)

Lemma nonempty_allocated (st : state) (a : array_id) :
  (0 < List.length (array_of st a))%nat -> allocated st a.
Proof.
  destruct a as [| |n]; simpl; trivial.
  intros Hlen. destruct (Nat.lt_ge_cases n (List.length (heap st))) as [Hlt|Hge].
  - assumption.
  - rewrite nth_overflow in Hlen by assumption. simpl in Hlen. lia.
Qed.

Lemma nth_update_nth_same {A : Type} (n : nat) (v d : A) (l : list A) :
  (n < List.length l)%nat -> nth n (update_nth n v l) d = v.
Proof.
  revert n. induction l as [|x l IH]; intros [|n] Hn; simpl in *; try lia.
  - reflexivity.
  - apply IH. lia.
Qed.

Lemma nth_update_nth_other {A : Type} (n m : nat) (v d : A) (l : list A) :
  n <> m -> nth m (update_nth n v l) d = nth m l d.
Proof.
  revert n m. induction l as [|x l IH]; intros [|n] [|m] Hnm; simpl;
    try reflexivity; try congruence.
  apply IH. congruence.
Qed.

Lemma update_nth_length {A : Type} (n : nat) (v : A) (l : list A) :
  List.length (update_nth n v l) = List.length l.
Proof.
  revert n. induction l as [|x l IH]; intros [|n]; simpl; try reflexivity.
  now rewrite IH.
Qed.

Lemma array_of_set_array_same (a : array_id) (d : list byte) (st : state) :
  allocated st a -> array_of (set_array a d st) a = d.
Proof.
  destruct a as [| |n]; simpl; intros Ha; try reflexivity.
  now apply nth_update_nth_same.
Qed.

Lemma array_of_set_array_other (a b : array_id) (d : list byte) (st : state) :
  a <> b -> array_of (set_array a d st) b = array_of st b.
Proof.
  destruct a as [| |n], b as [| |m]; simpl; intros Hab;
    try reflexivity; try congruence.
  apply nth_update_nth_other. congruence.
Qed.

Lemma allocated_set_array (a b : array_id) (d : list byte) (st : state) :
  allocated st b -> allocated (set_array a d st) b.
Proof.
  destruct a as [| |n], b as [| |m]; simpl; trivial.
  now rewrite update_nth_length.
Qed.

Lemma fields_set_array (a : array_id) (d : list byte) (st : state) :
  fields (req (set_array a d st)) = fields (req st).
Proof. destruct a; reflexivity. Qed.

Lemma store_Returns (st : state) (a : array_id) (o k : nat) (bs : list byte) :
  (o + k + List.length bs <= List.length (array_of st a))%nat ->
  store st (a, o) k bs =
  Returns (set_array a (splice (o + k) bs (array_of st a)) st).
Proof.
  intros Hfit. unfold store. cbn [fst snd].
  now rewrite (proj2 (Nat.leb_le _ _) Hfit).
Qed.

Lemma load_Returns (st : state) (a : array_id) (o k n : nat) :
  (o + k + n <= List.length (array_of st a))%nat ->
  load st (a, o) k n = Returns (firstn n (skipn (o + k) (array_of st a))).
Proof.
  intros Hfit. unfold load. cbn [fst snd].
  now rewrite (proj2 (Nat.leb_le _ _) Hfit).
Qed.

Lemma load_inv (st : state) (a : array_id) (o k n : nat) (bs : list byte) :
  load st (a, o) k n = Returns bs ->
  (o + k + n <= List.length (array_of st a))%nat /\
  bs = firstn n (skipn (o + k) (array_of st a)).
Proof.
  unfold load. cbn [fst snd].
  destruct (o + k + n <=? List.length (array_of st a))%nat eqn:E;
    [|discriminate].
  intros [= <-]. apply Nat.leb_le in E. now split.
Qed.

Lemma load_length (st : state) (p : pointer) (k n : nat) (bs : list byte) :
  load st p k n = Returns bs -> List.length bs = n.
Proof.
  destruct p as [a o]. intros Hl. apply load_inv in Hl as [Hfit ->].
  rewrite firstn_length_le; [reflexivity|]. rewrite length_skipn. lia.
Qed.

Lemma load_uint_range (st : state) (p : pointer) (k n : nat) (v : Z) :
  load_uint st p k n = Returns v -> 0 <= v < 2 ^ (8 * Z.of_nat n).
Proof.
  unfold load_uint. destruct (load st p k n) as [bs|f] eqn:E; [|discriminate].
  cbn [bind]. intros [= <-]. apply load_length in E. subst n.
  apply le_decode_range.
Qed.

(** Every array keeps its contents when only request fields change. *)
Lemma array_of_with_fields (st st' : state) (a : array_id) :
  heap st' = heap st ->
  outBuf (req st') = outBuf (req st) ->
  smallInputBuf (req st') = smallInputBuf (req st) ->
  array_of st' a = array_of st a.
Proof. destruct a; simpl; congruence. Qed.

(** ** [serializeHeader] *)

Section Serializer.
Context `{Package}.

Lemma fields_store (st st' : state) (p : pointer) (k : nat) (bs : list byte) :
  store st p k bs = Returns st' -> fields (req st') = fields (req st).
Proof.
  unfold store.
  destruct (snd p + k + List.length bs <=? List.length (array_of st (fst p)))%nat;
    [|discriminate].
  intros [= <-]. apply fields_set_array.
Qed.

(** What [serializeHeader] does to a request whose [outputBuf] has room
    for the header and the structured data. *)
Lemma serializeHeader_core (n : Z) (st : state) (dl u : Z)
      (a : array_id) (o l c : nat) :
  dataLength st = Returns dl ->
  inHeader_Unique st = Returns u ->
  outputBuf (req st) = Slice a o l c ->
  (1 <= l)%nat ->
  (o + 16 <= List.length (array_of st a))%nat ->
  0 <= dl ->
  dl + 16 <= Z.of_nat c ->
  Z.of_nat c < 2 ^ 63 ->
  exists st',
    serializeHeader n st = Returns st' /\
    outputBuf (req st') = Slice a o (Z.to_nat (dl + 16)) c /\
    reply_header st' =
      Returns (mkOutHeader (uint32 (16 + dl + n)) (int32 (- status (req st))) u) /\
    status (req st') = status (req st) /\
    inputBuf (req st') = inputBuf (req st).
Proof.
  intros Hdl Hu Hob Hl Hfit Hdl0 Hcap Hint.
  assert (Halloc : allocated st a) by (apply nonempty_allocated; lia).
  assert (Hur : 0 <= u < 2 ^ 64).
  { unfold inHeader_Unique in Hu.
    destruct (inHeader st) as [p|f]; [|discriminate]. cbn [bind] in Hu.
    apply load_uint_range in Hu. exact Hu. }
  set (m0 := array_of st a) in *.
  set (bu := le_encode 8 u).
  set (bs := le_encode 4 (int32 (- status (req st)))).
  set (bl := le_encode 4
               (uint32 (int (int (int sizeOfOutHeader + int dl) + n)))).
  set (m1 := splice (o + 8) bu m0).
  set (m2 := splice (o + 4) bs m1).
  set (m3 := splice (o + 0) bl m2).
  assert (Lu : List.length bu = 8%nat) by apply le_encode_length.
  assert (Ls : List.length bs = 4%nat) by apply le_encode_length.
  assert (Ll : List.length bl = 4%nat) by apply le_encode_length.
  assert (L1 : List.length m1 = List.length m0)
    by (apply splice_length; lia).
  assert (L2 : List.length m2 = List.length m0)
    by (unfold m2; rewrite splice_length; lia).
  assert (L3 : List.length m3 = List.length m0)
    by (unfold m3; rewrite splice_length; lia).
  set (st1 := set_array a m1 st).
  set (st2 := set_array a m2 st1).
  set (st3 := set_array a m3 st2).
  assert (A1 : array_of st1 a = m1) by now apply array_of_set_array_same.
  assert (Halloc1 : allocated st1 a) by now apply allocated_set_array.
  assert (A2 : array_of st2 a = m2) by now apply array_of_set_array_same.
  assert (Halloc2 : allocated st2 a) by now apply allocated_set_array.
  assert (A3 : array_of st3 a = m3) by now apply array_of_set_array_same.
  assert (F1 : fields (req st1) = fields (req st)) by apply fields_set_array.
  assert (F2 : fields (req st2) = fields (req st)).
  { unfold st2. now rewrite fields_set_array. }
  assert (F3 : fields (req st3) = fields (req st)).
  { unfold st3. now rewrite fields_set_array. }
  assert (S1 : store st (a, o) OutHeader_Unique_offset bu = Returns st1).
  { rewrite store_Returns; [reflexivity|].
    unfold OutHeader_Unique_offset. fold m0. lia. }
  assert (S2 : store st1 (a, o) OutHeader_Status_offset bs = Returns st2).
  { rewrite store_Returns; [now rewrite A1|].
    unfold OutHeader_Status_offset. rewrite A1. lia. }
  assert (S3 : store st2 (a, o) OutHeader_Length_offset bl = Returns st3).
  { rewrite store_Returns; [now rewrite A2|].
    unfold OutHeader_Length_offset. rewrite A2. lia. }
  assert (Hst1 : status (req st1) = status (req st)).
  { apply (f_equal (fun t => snd (fst (fst (fst (fst (fst (fst t)))))))) in F1.
    exact F1. }
  assert (Hob2 : outputBuf (req st2) = Slice a o l c).
  { apply (f_equal (fun t =>
      snd (fst (fst (fst (fst (fst (fst (fst (fst (fst t))))))))))) in F2.
    cbn in F2. now rewrite F2. }
  set (ob := Slice a o (Z.to_nat (dl + 16)) c).
  exists (set_outputBuf ob st3).
  split; [|split; [|split; [|split]]].
  - unfold serializeHeader. rewrite Hdl. cbn [bind].
    unfold outHeader. rewrite Hob. cbn [addr0].
    destruct (l =? 0)%nat eqn:El; [apply Nat.eqb_eq in El; lia|].
    cbn [bind]. rewrite Hu. cbn [bind].
    fold bu. rewrite S1. cbn [bind].
    rewrite Hst1. fold bs. rewrite S2. cbn [bind].
    fold bl. rewrite S3. cbn [bind].
    assert (Hob3 : outputBuf (req st3) = Slice a o l c).
    { unfold st3.
      pose proof (fields_set_array a m3 st2) as F.
      apply (f_equal (fun t =>
        snd (fst (fst (fst (fst (fst (fst (fst (fst (fst t))))))))))) in F.
      cbn in F. now rewrite F. }
    rewrite Hob3. unfold slice_to. cbn [cap].
    unfold sizeOfOutHeader.
    rewrite uintptr_small by (change (2 ^ 64) with (2 ^ 63 + 2 ^ 63); lia).
    replace ((0 <=? dl + 16) && (dl + 16 <=? Z.of_nat c)) with true
      by (symmetry; apply andb_true_iff; split; apply Z.leb_le; lia).
    reflexivity.
  - reflexivity.
  - unfold reply_header, outHeader. cbn [set_outputBuf with_req req outputBuf].
    unfold ob at 1. cbn [addr0].
    destruct (Z.to_nat (dl + 16) =? 0)%nat eqn:El;
      [apply Nat.eqb_eq in El; lia|].
    cbn [bind].
    assert (A3' : array_of (set_outputBuf ob st3) a = m3).
    { rewrite <- A3. now apply array_of_with_fields. }
    unfold load_uint.
    rewrite !load_Returns
      by (rewrite A3';
          unfold OutHeader_Length_offset, OutHeader_Status_offset,
            OutHeader_Unique_offset; lia).
    rewrite A3'. cbn [bind].
    unfold OutHeader_Length_offset, OutHeader_Status_offset,
      OutHeader_Unique_offset.
    (* the length field *)
    assert (W0 : firstn 4 (skipn (o + 0) m3) = bl).
    { unfold m3. rewrite <- Ll at 1. apply window_splice_same. lia. }
    (* the status field *)
    assert (W4 : firstn 4 (skipn (o + 4) m3) = bs).
    { unfold m3. rewrite window_splice_other by lia.
      unfold m2. rewrite <- Ls at 1. apply window_splice_same. lia. }
    (* the unique field *)
    assert (W8 : firstn 8 (skipn (o + 8) m3) = bu).
    { unfold m3. rewrite window_splice_other by lia.
      unfold m2. rewrite window_splice_other by lia.
      unfold m1. rewrite <- Lu at 1. apply window_splice_same. lia. }
    rewrite W0, W4, W8. unfold bl, bs, bu.
    rewrite !le_decode_encode.
    change (2 ^ (8 * Z.of_nat 4)) with (2 ^ 32).
    change (2 ^ (8 * Z.of_nat 8)) with (2 ^ 64).
    rewrite (Z.mod_small u) by exact Hur.
    fold (uwrap 32 (int32 (- status (req st)))).
    fold (uint32 (int32 (- status (req st)))).
    rewrite int32_uint32, int32_idem.
    rewrite length_field.
    assert (Hmm : forall x, uint32 x mod 2 ^ 32 = uint32 x).
    { intros x. unfold uint32, uwrap. apply Zmod_mod. }
    rewrite Hmm. reflexivity.
  - cbn [set_outputBuf with_req req status].
    apply (f_equal (fun t => snd (fst (fst (fst (fst (fst (fst t)))))))) in F3.
    exact F3.
  - cbn [set_outputBuf with_req req inputBuf].
    apply (f_equal (fun t =>
      snd (fst (fst (fst (fst (fst (fst (fst (fst (fst (fst t)))))))))))) in F3.
    exact F3.
Qed.

End Serializer.

(** ** [parse] *)

Section Parser.
Context `{Package}.

Lemma split_loop_nonempty (k : nat) (s : list byte) (sep : byte) :
  split_loop k s sep <> [].
Proof.
  destruct k as [|k]; simpl; [discriminate|].
  destruct (IndexByte s sep); discriminate.
Qed.

Lemma IndexByte_first (name rest : list byte) (sep : byte) :
  ~ In sep name ->
  IndexByte (name ++ sep :: rest) sep = Some (List.length name).
Proof.
  induction name as [|b name IH]; intros Hnot; simpl.
  - now rewrite (Byte.byte_dec_lb (eq_refl sep)).
  - destruct (Byte.eqb b sep) eqn:E.
    + apply Byte.byte_dec_bl in E. subst b. exfalso. apply Hnot. now left.
    + rewrite IH; [reflexivity|]. intros Hin. apply Hnot. now right.
Qed.

(** Splitting [name NUL value] in two gives the name and the value. *)
Lemma SplitN_name_value (name value : list byte) :
  ~ In x00 name ->
  SplitN (name ++ x00 :: value) x00 2 = [name; value].
Proof.
  intros Hnot. unfold SplitN. cbn [Z.eqb Z.ltb Z.compare].
  replace (2 >? Z.of_nat (List.length (name ++ x00 :: value)) + 1) with false.
  2:{ symmetry. rewrite Z.gtb_ltb. apply Z.ltb_ge.
      rewrite length_app. cbn [List.length]. lia. }
  change (Z.to_nat (2 - 1)) with 1%nat. cbn [split_loop].
  rewrite IndexByte_first by assumption.
  rewrite firstn_app, Nat.sub_diag, firstn_all, app_nil_r. cbn [firstn].
  replace (S (List.length name)) with (List.length name + 1)%nat by lia.
  rewrite skipn_app, skipn_all2 by lia.
  replace (List.length name + 1 - List.length name)%nat with 1%nat by lia.
  reflexivity.
Qed.

Lemma parse_filenames_frame (opcode count : Z) (st stf : state) :
  parse_filenames opcode count st = Returns stf ->
  heap stf = heap st /\
  untouched_by_parse (req stf) = untouched_by_parse (req st) /\
  outBuf (req stf) = outBuf (req st) /\
  outputBuf (req stf) = outputBuf (req st) /\
  arg (req stf) = arg (req st) /\
  (status (req stf) = status (req st) \/ status (req stf) = EIO).
Proof.
  unfold parse_filenames.
  destruct ((count =? 1) && (opcode =? _OP_SETXATTR)).
  - destruct (SplitN _ _ _); [discriminate|].
    intros [= <-]. repeat split; auto.
  - destruct (count =? 1).
    + destruct (slice_to _ _); cbn [bind]; [|discriminate].
      intros [= <-]. repeat split; auto.
    + destruct (slice_to _ _); cbn [bind]; [|discriminate].
      destruct (negb _); intros [= <-]; repeat split; auto.
Qed.

(** The three ways in which [parse] returns. *)
Lemma parse_inv (ks : InitIn) (st st1 : state) (op : Z) :
  parse ks st = Returns st1 ->
  inHeader_Opcode st = Returns op ->
  match getHandler op with
  | None => st1 = set_status ENOSYS st
  | Some h =>
      let inSz :=
        if (op =? _OP_INIT) && (expected_size ks op h >? len (arg (req st)))
        then len (inputBuf (req st)) else expected_size ks op h in
      (len (inputBuf (req st)) < inSz /\ st1 = set_status EIO st) \/
      (inSz <= len (inputBuf (req st)) /\
       exists a stf ob,
         slice_from (inputBuf (req st))
           (if InputSize h >? 0 then inSz else sizeOfInHeader) = Returns a /\
         (if FileNames h >? 0
          then parse_filenames op (FileNames h) (set_arg a st) = Returns stf
          else stf = set_arg a st) /\
         slice_to (Slice OutBufArr 0 outputHeaderSize outputHeaderSize)
                  (uintptr (OutputSize h + sizeOfOutHeader)) = Returns ob /\
         st1 = copy (set_outputBuf ob stf) ob (repeat x00 outputHeaderSize))
  end.
Proof.
  intros Hp Hop. unfold parse in Hp. rewrite Hop in Hp. cbn [bind] in Hp.
  destruct (getHandler op) as [h|]; [|now inversion Hp].
  fold (expected_size ks op h) in Hp. cbv zeta in *.
  set (inSz := if (op =? _OP_INIT) && _ then _ else _) in *.
  destruct (len (inputBuf (req st)) <? inSz) eqn:E.
  - left. apply Z.ltb_lt in E. split; [assumption|now inversion Hp].
  - right. apply Z.ltb_ge in E. split; [assumption|].
    assert (Hs : exists a,
               slice_from (inputBuf (req st))
                 (if InputSize h >? 0 then inSz else sizeOfInHeader)
               = Returns a /\
               (stf <- (if FileNames h >? 0
                        then parse_filenames op (FileNames h) (set_arg a st)
                        else Returns (set_arg a st)) ;;
                ob <- slice_to (Slice OutBufArr 0 outputHeaderSize outputHeaderSize)
                               (uintptr (OutputSize h + sizeOfOutHeader)) ;;
                Returns (copy (set_outputBuf ob stf) ob
                              (repeat x00 outputHeaderSize))) = Returns st1).
    { destruct (InputSize h >? 0);
        (destruct (slice_from _ _) as [a|f]; cbn [bind] in Hp;
         [exists a; split; [reflexivity|exact Hp]|discriminate]). }
    destruct Hs as (a & Ha & Hrest). exists a.
    destruct (FileNames h >? 0).
    + destruct (parse_filenames _ _ _) as [stf|f]; cbn [bind] in Hrest;
        [|discriminate].
      destruct (slice_to _ _) as [ob|f]; cbn [bind] in Hrest; [|discriminate].
      exists stf, ob. repeat split; try assumption. now inversion Hrest.
    + cbn [bind] in Hrest.
      destruct (slice_to _ _) as [ob|f]; cbn [bind] in Hrest; [|discriminate].
      exists (set_arg a st), ob. repeat split; try assumption.
      now inversion Hrest.
Qed.

End Parser.

(* ================================================================= *)
(** * The claims *)

(** ** Recycling a request *)

(** C10: [clear] sets [inputBuf], [outputBuf], [arg], [filenames],
    [flatData], [fdData] and [readResult] to nil, [status] to [OK] and
    [startTime] to the zero time, and changes nothing else: the two pool
    buffer references, [cancel], [interrupted] and [inflightIndex] (and the
    inline arrays) are as before, so [clear] alone neither releases the
    pool buffers nor resets the interrupted flag. *)
Theorem clear_resets_only_per_request_fields (r : request) :
  let r' := clear r in
  (inputBuf r' = nil_slice /\ outputBuf r' = nil_slice /\ arg r' = nil_slice /\
   filenames r' = None /\ flatData r' = nil_slice /\ fdData r' = None /\
   readResult r' = None /\ status r' = OK /\ startTime r' = 0) /\
  (bufferPoolInputBuf r' = bufferPoolInputBuf r /\
   bufferPoolOutputBuf r' = bufferPoolOutputBuf r /\
   cancel r' = cancel r /\ interrupted r' = interrupted r /\
   inflightIndex r' = inflightIndex r /\
   outBuf r' = outBuf r /\ smallInputBuf r' = smallInputBuf r).
Proof.
  cbv zeta. unfold clear. cbn. repeat split.
Qed.

(** ** Taking the input *)

Lemma bytes_of_inline_copy (st : state) (src : list byte) :
  List.length (smallInputBuf (req st)) = smallInputBufSize ->
  (List.length src < smallInputBufSize)%nat ->
  let st' := copy st (Slice SmallInputArr 0 smallInputBufSize smallInputBufSize) src in
  firstn (List.length src) (smallInputBuf (req st')) = src /\
  heap st' = heap st /\
  fields (req st') = fields (req st) /\
  outBuf (req st') = outBuf (req st).
Proof.
  intros Hlen Hsrc. cbv zeta. unfold copy.
  rewrite Nat.min_r by lia. rewrite firstn_all.
  cbn [set_array with_req req heap smallInputBuf array_of fields outBuf].
  repeat split.
  change (firstn (List.length src) (skipn 0 (splice 0 src (smallInputBuf (req st)))) = src).
  apply window_splice_same. lia.
Qed.

(** C6, as the code has it: a frame of fewer than 128 bytes is copied into
    the inline array, [inputBuf] shows that copy, the pool reference and
    the caller's arrays are left alone and [setInput] returns false; a
    frame of 128 bytes or more is kept where it is: [inputBuf] is the
    caller's slice, [bufferPoolInputBuf] is that slice at its full
    capacity, and [setInput] returns true. *)
Theorem setInput_copies_below_128_else_owns (input : slice) (st : state) :
  List.length (smallInputBuf (req st)) = smallInputBufSize ->
  List.length (bytes_of st input) = Z.to_nat (len input) ->
  (len input < 128 ->
     snd (setInput input st) = false /\
     inputBuf (req (fst (setInput input st)))
       = Slice SmallInputArr 0 (Z.to_nat (len input)) smallInputBufSize /\
     bytes_of (fst (setInput input st)) (inputBuf (req (fst (setInput input st))))
       = bytes_of st input /\
     bufferPoolInputBuf (req (fst (setInput input st)))
       = bufferPoolInputBuf (req st) /\
     heap (fst (setInput input st)) = heap st) /\
  (128 <= len input ->
     snd (setInput input st) = true /\
     inputBuf (req (fst (setInput input st))) = input /\
     (exists a o l c,
        input = Slice a o l c /\
        bufferPoolInputBuf (req (fst (setInput input st))) = Slice a o c c) /\
     smallInputBuf (req (fst (setInput input st))) = smallInputBuf (req st) /\
     heap (fst (setInput input st)) = heap st).
Proof.
  intros Hsmall Hvalid. unfold setInput. split; intros Hlen.
  - replace (len input <? Z.of_nat smallInputBufSize) with true
      by (symmetry; apply Z.ltb_lt; unfold smallInputBufSize; lia).
    cbn [fst snd].
    assert (Hsrc : (List.length (bytes_of st input) < smallInputBufSize)%nat)
      by (rewrite Hvalid; unfold smallInputBufSize; lia).
    destruct (bytes_of_inline_copy st (bytes_of st input) Hsmall Hsrc)
      as (Hcopy & Hheap & Hfields & _).
    cbv zeta in Hcopy, Hheap, Hfields.
    set (st1 := copy st _ _) in *.
    split; [reflexivity|]. split; [reflexivity|]. split; [|split].
    + cbn [set_inputBuf with_req req inputBuf bytes_of array_of smallInputBuf skipn].
      rewrite <- Hvalid. exact Hcopy.
    + cbn [set_inputBuf with_req req bufferPoolInputBuf].
      apply (f_equal (fun t => snd (fst t))) in Hfields. exact Hfields.
    + exact Hheap.
  - replace (len input <? Z.of_nat smallInputBufSize) with false
      by (symmetry; apply Z.ltb_ge; unfold smallInputBufSize; lia).
    cbn [fst snd].
    destruct input as [|a o l c]; [cbn [len] in Hlen; lia|].
    cbn. repeat split. now exists a, o, l, c.
Qed.

(** ** SETXATTR *)

Section SetXAttr.
Context `{Package}.

Lemma inHeader_Opcode_nonnil (st : state) (op : Z) :
  inHeader_Opcode st = Returns op ->
  exists a o l c, inputBuf (req st) = Slice a o l c /\ (1 <= l)%nat.
Proof.
  unfold inHeader_Opcode, inHeader, inData.
  destruct (inputBuf (req st)) as [|a o l c]; [discriminate|].
  cbn [addr0]. destruct (l =? 0)%nat eqn:El; [discriminate|].
  intros _. exists a, o, l, c. apply Nat.eqb_neq in El. split; [reflexivity|lia].
Qed.

(** The bytes of [s[lo:]] are the bytes of [s] without the first [lo]. *)
Lemma bytes_of_tail (st : state) (a : array_id) (o l c k : nat)
      (front rest : list byte) :
  bytes_of st (Slice a o l c) = front ++ rest ->
  List.length front = k ->
  bytes_of st (Slice a (o + k) (l - k) (c - k)) = rest.
Proof.
  cbn [bytes_of]. intros Hb Hk.
  assert (Hle : (k <= l)%nat).
  { apply (f_equal (@List.length byte)) in Hb.
    rewrite length_firstn, length_app in Hb. lia. }
  apply (f_equal (skipn k)) in Hb.
  rewrite skipn_app, <- Hk, skipn_all, Nat.sub_diag in Hb. cbn in Hb.
  rewrite <- Hb, Hk.
  rewrite skipn_firstn_comm. rewrite skipn_skipn.
  replace (k + (l - k))%nat with l by lia.
  now rewrite (Nat.add_comm k o).
Qed.

(** C5: for a SETXATTR frame whose argument region is a name, a NUL and
    the value bytes, [parse] returns with [filenames] holding that one
    name, the part before the first NUL; [arg] still shows the whole
    region, so the bytes after its first NUL are the value, which is what
    splitting [arg] in two on NUL hands to the handler. *)
Theorem parse_SETXATTR_name_before_first_NUL
        (ks : InitIn) (st : state) (h : operationHandler)
        (front name value : list byte) :
  inHeader_Opcode st = Returns _OP_SETXATTR ->
  getHandler _OP_SETXATTR = Some h ->
  FileNames h = 1 ->
  _OP_SETXATTR <> _OP_RENAME ->
  _OP_SETXATTR <> _OP_INIT ->
  0 <= InputSize h < 2 ^ 63 ->
  0 <= OutputSize h ->
  OutputSize h + sizeOfOutHeader <= Z.of_nat outputHeaderSize ->
  Z.of_nat outputHeaderSize < 2 ^ 63 ->
  array_behind (inputBuf (req st)) <> Some OutBufArr ->
  bytes_of st (inputBuf (req st)) = front ++ name ++ x00 :: value ->
  Z.of_nat (List.length front)
    = (if InputSize h >? 0 then InputSize h else sizeOfInHeader) ->
  ~ In x00 name ->
  exists st',
    parse ks st = Returns st' /\
    filenames (req st') = Some [string_of_bytes name] /\
    bytes_of st' (arg (req st')) = name ++ x00 :: value /\
    SplitN (bytes_of st' (arg (req st'))) x00 2 = [name; value].
Proof.
  intros Hop Hh Hcount Hne1 Hne2 HIn HOut0 HOut Hcap Harr Hbytes Hfront Hnul.
  destruct (inHeader_Opcode_nonnil st _ Hop) as (a & o & l & c & Hib & Hl).
  rewrite Hib in Hbytes, Harr. cbn [array_behind] in Harr.
  set (k := List.length front) in *.
  assert (Hk : (k <= l)%nat).
  { apply (f_equal (@List.length byte)) in Hbytes. cbn [bytes_of] in Hbytes.
    rewrite length_firstn, length_app in Hbytes. fold k in Hbytes. lia. }
  pose proof (bytes_of_tail st a o l c k front _ Hbytes eq_refl) as Harg.
  set (A := Slice a (o + k) (l - k) (c - k)) in *.
  set (ob := Slice OutBufArr 0 (Z.to_nat (OutputSize h + sizeOfOutHeader))
                   outputHeaderSize).
  set (stf := set_filenames (Some [string_of_bytes name]) (set_arg A st)).
  exists (copy (set_outputBuf ob stf) ob (repeat x00 outputHeaderSize)).
  assert (Hfinal : bytes_of (copy (set_outputBuf ob stf) ob
                                  (repeat x00 outputHeaderSize)) A
                   = name ++ x00 :: value).
  { rewrite <- Harg. unfold A. cbn [bytes_of]. f_equal. f_equal.
    destruct a as [| |n]; [congruence|reflexivity|reflexivity]. }
  split; [|split; [reflexivity|split]].
  - unfold parse. rewrite Hop. cbn [bind]. rewrite Hh.
    replace (_OP_SETXATTR =? _OP_RENAME) with false
      by (symmetry; now apply Z.eqb_neq).
    replace (_OP_SETXATTR =? _OP_INIT) with false
      by (symmetry; now apply Z.eqb_neq).
    cbn [andb]. rewrite int_small by lia. rewrite Hib. cbn [len].
    assert (Hslice : (if InputSize h >? 0
                      then slice_from (Slice a o l c) (InputSize h)
                      else slice_from (Slice a o l c) sizeOfInHeader)
                     = Returns A).
    { assert (Hgen : forall z, z = Z.of_nat k ->
                slice_from (Slice a o l c) z = Returns A).
      { intros z ->. unfold slice_from. cbn [len].
        replace ((0 <=? Z.of_nat k) && (Z.of_nat k <=? Z.of_nat l)) with true
          by (symmetry; apply andb_true_iff; split; apply Z.leb_le; lia).
        rewrite Nat2Z.id. reflexivity. }
      destruct (InputSize h >? 0); apply Hgen; lia. }
    replace (Z.of_nat l <? InputSize h) with false.
    2:{ symmetry. apply Z.ltb_ge.
        destruct (InputSize h >? 0) eqn:E; [lia|].
        rewrite Z.gtb_ltb in E. apply Z.ltb_ge in E. lia. }
    rewrite Hslice. cbn [bind]. rewrite Hcount. cbn [Z.gtb Z.compare].
    unfold parse_filenames.
    rewrite Z.eqb_refl, Z.eqb_refl. cbn [andb].
    cbn [set_arg with_req req arg].
    replace (bytes_of (set_arg A st) A) with (bytes_of st A) by reflexivity.
    rewrite Harg, SplitN_name_value by assumption.
    cbn [bind]. fold stf.
    unfold slice_to. cbn [cap].
    rewrite uintptr_small
      by (change (2 ^ 64) with (2 ^ 63 + 2 ^ 63); unfold sizeOfOutHeader in *; lia).
    replace ((0 <=? OutputSize h + sizeOfOutHeader)
             && (OutputSize h + sizeOfOutHeader <=? Z.of_nat outputHeaderSize))
      with true
      by (symmetry; apply andb_true_iff; split; apply Z.leb_le;
          unfold sizeOfOutHeader in *; lia).
    cbn [bind]. reflexivity.
  - exact Hfinal.
  - change (arg (req (copy (set_outputBuf ob stf) ob
                           (repeat x00 outputHeaderSize)))) with A.
    rewrite Hfinal. now apply SplitN_name_value.
Qed.

End SetXAttr.

(** ** The reply header *)

Section Reply.
Context `{Package}.

(** The [dataLength] of [serializeHeader] is the structured length of the
    spec. *)
Lemma dataLength_structured_length (st : state) (op sz : Z) :
  inHeader_Opcode st = Returns op ->
  (op = _OP_GETXATTR \/ op = _OP_LISTXATTR -> GetXAttrIn_Size st = Returns sz) ->
  dataLength st = Returns (structured_length op (status (req st)) sz).
Proof.
  intros Hop Hsz. unfold dataLength, structured_length.
  rewrite Hop. cbn [bind].
  destruct ((op =? _OP_GETXATTR) || (op =? _OP_LISTXATTR)) eqn:Ex.
  - rewrite Hsz.
    2:{ apply orb_true_iff in Ex as [E|E]; apply Z.eqb_eq in E; auto. }
    cbn [bind andb].
    destruct (status (req st) >? OK), (negb (sz =? 0)); reflexivity.
  - cbn [andb]. destruct (status (req st) >? OK); reflexivity.
Qed.

(** C1, as the code has it: for a request whose [outputBuf] has room for
    the out-header and the structured data, [serializeHeader] returns and
    leaves an out-header whose [unique] is the one of the in-header, whose
    status is the negated request status as an [int32] and whose length is
    [outHeader_size + structured_length + flatDataSize] reduced modulo
    [2^32] (the sum itself when it fits 32 bits); the structured length
    is the output-record size of the registry entry, 0 without an entry,
    0 when [status > OK], and 0 for a GETXATTR or LISTXATTR whose [Size]
    is not 0; [outputBuf] is cut to [outHeader_size + structured_length];
    and [flatDataSize] is [fdData.Size()] when [fdData] is there and
    [len(flatData)] otherwise. *)
Theorem serializeHeader_fills_out_header
        (n : Z) (st : state) (op u sz : Z) (a : array_id) (o l c : nat) :
  inHeader_Opcode st = Returns op ->
  inHeader_Unique st = Returns u ->
  (op = _OP_GETXATTR \/ op = _OP_LISTXATTR -> GetXAttrIn_Size st = Returns sz) ->
  outputBuf (req st) = Slice a o l c ->
  (1 <= l)%nat ->
  (o + 16 <= List.length (array_of st a))%nat ->
  Z.of_nat c < 2 ^ 63 ->
  0 <= structured_length op (status (req st)) sz ->
  sizeOfOutHeader + structured_length op (status (req st)) sz <= Z.of_nat c ->
  exists st',
    serializeHeader n st = Returns st' /\
    reply_header st' =
      Returns (mkOutHeader
                 (uint32 (sizeOfOutHeader
                          + structured_length op (status (req st)) sz + n))
                 (int32 (- status (req st)))
                 u) /\
    (0 <= n ->
     sizeOfOutHeader + structured_length op (status (req st)) sz + n < 2 ^ 32 ->
     uint32 (sizeOfOutHeader + structured_length op (status (req st)) sz + n)
     = sizeOfOutHeader + structured_length op (status (req st)) sz + n) /\
    outputBuf (req st') =
      Slice a o
            (Z.to_nat (sizeOfOutHeader
                       + structured_length op (status (req st)) sz)) c /\
    (status (req st) > OK -> structured_length op (status (req st)) sz = 0) /\
    (getHandler op = None -> structured_length op (status (req st)) sz = 0) /\
    flatDataSize (req st) =
      match fdData (req st) with
      | Some fd => Size fd
      | None => len (flatData (req st))
      end.
Proof.
  intros Hop Hu Hsz Hob Hl Hfit Hc Hdl0 Hdl.
  pose proof (dataLength_structured_length st op sz Hop Hsz) as Hd.
  set (dl := structured_length op (status (req st)) sz) in *.
  unfold sizeOfOutHeader in *.
  destruct (serializeHeader_core n st dl u a o l c Hd Hu Hob Hl Hfit Hdl0
              ltac:(lia) Hc)
    as (st' & Hs & Hob' & Hr & _ & _).
  exists st'. split; [exact Hs|]. split; [exact Hr|].
  split; [|split; [|split; [|split]]].
  - intros Hn Hsum. unfold uint32, uwrap. apply Z.mod_small. lia.
  - rewrite Hob'. now rewrite Z.add_comm.
  - intros Hst. unfold dl, structured_length.
    now rewrite (proj2 (Z.gtb_lt _ _) (Z.gt_lt _ _ Hst)).
  - intros Hnone. unfold dl, structured_length. rewrite Hnone.
    destruct (status (req st) >? OK); [reflexivity|].
    destruct (_ && _); reflexivity.
  - reflexivity.
Qed.

(** C2, as the code has it: for GETXATTR and LISTXATTR the serializer
    reads the [Size] field of the input record.  When [Size] is not 0 the
    structured length is 0: [outputBuf] is cut to the out-header and the
    length field counts the header and the flat data only.  When [Size]
    is 0 and the status is not a failure, [outputBuf] keeps the output
    record of the registry entry and the length field counts it.  A
    failure status leaves the out-header alone in both modes.  The flat
    size is always the one the caller passes. *)
Theorem serializeHeader_xattr_two_modes
        (n : Z) (st : state) (op u sz : Z) (h : operationHandler)
        (a : array_id) (o l c : nat) :
  inHeader_Opcode st = Returns op ->
  op = _OP_GETXATTR \/ op = _OP_LISTXATTR ->
  GetXAttrIn_Size st = Returns sz ->
  inHeader_Unique st = Returns u ->
  getHandler op = Some h ->
  0 <= OutputSize h ->
  sizeOfOutHeader + OutputSize h <= Z.of_nat c ->
  outputBuf (req st) = Slice a o l c ->
  (1 <= l)%nat ->
  (o + 16 <= List.length (array_of st a))%nat ->
  Z.of_nat c < 2 ^ 63 ->
  exists st' hdr,
    serializeHeader n st = Returns st' /\
    reply_header st' = Returns hdr /\
    (sz <> 0 ->
       len (outputBuf (req st')) = sizeOfOutHeader /\
       Length hdr = uint32 (sizeOfOutHeader + n)) /\
    (sz = 0 -> status (req st) <= OK ->
       len (outputBuf (req st')) = sizeOfOutHeader + OutputSize h /\
       Length hdr = uint32 (sizeOfOutHeader + OutputSize h + n)) /\
    (status (req st) > OK ->
       len (outputBuf (req st')) = sizeOfOutHeader /\
       Length hdr = uint32 (sizeOfOutHeader + n)).
Proof.
  intros Hop Hx Hsz Hu Hh Hout0 Hout Hob Hl Hfit Hc.
  pose proof (dataLength_structured_length st op sz Hop (fun _ => Hsz)) as Hd.
  assert (Hxb : (op =? _OP_GETXATTR) || (op =? _OP_LISTXATTR) = true).
  { apply orb_true_iff. destruct Hx as [-> | ->]; rewrite Z.eqb_refl; auto. }
  assert (Hcases : structured_length op (status (req st)) sz
                   = if (status (req st) >? OK) || negb (sz =? 0)
                     then 0 else OutputSize h).
  { unfold structured_length. rewrite Hxb, Hh. cbn [andb].
    destruct (status (req st) >? OK), (negb (sz =? 0)); reflexivity. }
  set (dl := structured_length op (status (req st)) sz) in *.
  clearbody dl. unfold sizeOfOutHeader in *.
  assert (Hdl : 0 <= dl /\ dl + 16 <= Z.of_nat c).
  { rewrite Hcases. destruct ((status (req st) >? OK) || negb (sz =? 0)); lia. }
  destruct (serializeHeader_core n st dl u a o l c Hd Hu Hob Hl Hfit
              (proj1 Hdl) (proj2 Hdl) Hc)
    as (st' & Hs & Hob' & Hr & _ & _).
  exists st', (mkOutHeader (uint32 (16 + dl + n)) (int32 (- status (req st))) u).
  split; [exact Hs|]. split; [exact Hr|].
  rewrite Hob'. cbn [len Length]. split; [|split].
  - intros Hnz.
    assert (E : dl = 0).
    { rewrite Hcases. apply Z.eqb_neq in Hnz. rewrite Hnz.
      cbn [negb]. now rewrite orb_true_r. }
    rewrite E. split; [reflexivity|]. f_equal.
  - intros Hz Hok.
    assert (E : dl = OutputSize h).
    { rewrite Hcases. subst sz. cbn [Z.eqb negb].
      replace (status (req st) >? OK) with false; [reflexivity|].
      symmetry. rewrite Z.gtb_ltb. apply Z.ltb_ge. exact Hok. }
    rewrite E. split; [lia|]. f_equal.
  - intros Hfail.
    assert (E : dl = 0).
    { rewrite Hcases.
      now rewrite (proj2 (Z.gtb_lt _ _) (Z.gt_lt _ _ Hfail)). }
    rewrite E. split; [reflexivity|]. f_equal.
Qed.

End Reply.

(** ** From the frame to the reply *)

Section Pipeline.
Context `{Package}.

(** What a successful [parse] leaves behind, besides [arg] and
    [filenames]. *)
Lemma parse_accepted (ks : InitIn) (st st1 : state) (op : Z)
      (h : operationHandler) :
  parse ks st = Returns st1 ->
  inHeader_Opcode st = Returns op ->
  getHandler op = Some h ->
  List.length (outBuf (req st)) = outputHeaderSize ->
  st1 = set_status EIO st \/
  (heap st1 = heap st /\
   untouched_by_parse (req st1) = untouched_by_parse (req st) /\
   (0 <= uintptr (OutputSize h + sizeOfOutHeader) <= Z.of_nat outputHeaderSize) /\
   outputBuf (req st1) =
     Slice OutBufArr 0 (Z.to_nat (uintptr (OutputSize h + sizeOfOutHeader)))
           outputHeaderSize /\
   List.length (outBuf (req st1)) = List.length (outBuf (req st)) /\
   (status (req st1) = status (req st) \/ status (req st1) = EIO)).
Proof.
  intros Hp Hop Hh Harr. pose proof (parse_inv ks st st1 op Hp Hop) as Hinv.
  rewrite Hh in Hinv. cbv zeta in Hinv.
  destruct Hinv as [[_ ->]|[_ (a & stf & ob & _ & Hf & Hob & ->)]];
    [now left|right].
  assert (Hstf : heap stf = heap st /\
                 untouched_by_parse (req stf) = untouched_by_parse (req st) /\
                 outBuf (req stf) = outBuf (req st) /\
                 (status (req stf) = status (req st) \/ status (req stf) = EIO)).
  { destruct (FileNames h >? 0).
    - apply parse_filenames_frame in Hf
        as (Hheap & Hunt & Hout & _ & _ & Hst).
      repeat split; assumption.
    - subst stf. repeat split. now left. }
  destruct Hstf as (Hheap & Hunt & Hout & Hst).
  unfold slice_to in Hob. cbn [cap] in Hob.
  destruct ((0 <=? uintptr (OutputSize h + sizeOfOutHeader))
            && (uintptr (OutputSize h + sizeOfOutHeader)
                <=? Z.of_nat outputHeaderSize)) eqn:E; [|discriminate].
  apply andb_true_iff in E as [E1 E2].
  apply Z.leb_le in E1, E2. injection Hob as <-.
  set (k := Z.to_nat (uintptr (OutputSize h + sizeOfOutHeader))).
  cbn [copy set_outputBuf with_req set_array req heap outputBuf status
       untouched_by_parse inflightIndex cancel interrupted inputBuf flatData
       fdData readResult startTime bufferPoolInputBuf bufferPoolOutputBuf
       smallInputBuf outBuf array_of].
  repeat split; try assumption; try lia.
  rewrite <- Hout. apply splice_length.
  rewrite length_firstn, repeat_length. cbn [Nat.add]. rewrite Hout, Harr.
  lia.
Qed.

Lemma array_kept_by_parse (st st' : state) (a : array_id) :
  heap st' = heap st ->
  untouched_by_parse (req st') = untouched_by_parse (req st) ->
  a <> OutBufArr ->
  array_of st' a = array_of st a.
Proof.
  intros Hheap Hunt Ha. destruct a as [| |n]; [congruence| |].
  - cbn [array_of]. apply (f_equal snd) in Hunt. exact Hunt.
  - cbn [array_of]. now rewrite Hheap.
Qed.

(** The fields read through [inData] depend on [inputBuf] and on the
    array behind it only. *)
Lemma header_reads_kept (st st' : state) :
  inputBuf (req st') = inputBuf (req st) ->
  (forall a, array_behind (inputBuf (req st)) = Some a ->
             array_of st' a = array_of st a) ->
  inHeader_Opcode st' = inHeader_Opcode st /\
  inHeader_Unique st' = inHeader_Unique st /\
  GetXAttrIn_Size st' = GetXAttrIn_Size st.
Proof.
  intros Hib Harr.
  unfold inHeader_Opcode, inHeader_Unique, GetXAttrIn_Size, inHeader, inData.
  rewrite Hib. destruct (inputBuf (req st)) as [|a o l c]; [now repeat split|].
  cbn [addr0]. destruct (l =? 0)%nat; [now repeat split|].
  cbn [bind]. unfold load_uint, load. cbn [fst snd].
  rewrite (Harr a eq_refl). now repeat split.
Qed.

(** C9, as the code has it: when [parse] accepts a frame (it returns with
    status [OK]) and the handler leaves the status and attaches no flat
    data, [serializeHeader] returns; the reply echoes the [unique] of the
    frame, its status field is 0, and its length field is the out-header
    size plus the output-record size of the opcode (nothing is added for
    a GETXATTR or LISTXATTR with a nonzero [Size]), so that the length is
    the bare out-header size exactly when that structured length is 0. *)
Theorem parse_then_serializeHeader_echoes_unique
        (ks : InitIn) (st st1 : state) (op u sz : Z) (h : operationHandler) :
  parse ks st = Returns st1 ->
  status (req st1) = OK ->
  flatData (req st) = nil_slice ->
  fdData (req st) = None ->
  inHeader_Opcode st = Returns op ->
  inHeader_Unique st = Returns u ->
  (op = _OP_GETXATTR \/ op = _OP_LISTXATTR -> GetXAttrIn_Size st = Returns sz) ->
  getHandler op = Some h ->
  0 <= OutputSize h ->
  OutputSize h + sizeOfOutHeader <= Z.of_nat outputHeaderSize ->
  Z.of_nat outputHeaderSize < 2 ^ 32 ->
  EIO <> OK ->
  array_behind (inputBuf (req st)) <> Some OutBufArr ->
  List.length (outBuf (req st)) = outputHeaderSize ->
  exists st2,
    serializeHeader (flatDataSize (req st1)) st1 = Returns st2 /\
    reply_header st2 =
      Returns (mkOutHeader (sizeOfOutHeader + structured_length op OK sz) 0 u) /\
    structured_length op OK sz =
      (if ((op =? _OP_GETXATTR) || (op =? _OP_LISTXATTR)) && negb (sz =? 0)
       then 0 else OutputSize h) /\
    len (outputBuf (req st2)) = sizeOfOutHeader + structured_length op OK sz.
Proof.
  intros Hp Hok Hflat Hfd Hop Hu Hsz Hh Hout0 Hout Hcap32 Heio Hbehind Harr.
  assert (Hcap : Z.of_nat outputHeaderSize < 2 ^ 63)
    by (eapply Z.lt_trans; [exact Hcap32|reflexivity]).
  destruct (parse_accepted ks st st1 op h Hp Hop Hh Harr)
    as [->|(Hheap & Hunt & Hk & Hob & Hlen & _)].
  { cbn in Hok. congruence. }
  unfold sizeOfOutHeader in *.
  rewrite uintptr_small in Hk, Hob
    by (change (2 ^ 64) with (2 ^ 63 + 2 ^ 63); lia).
  assert (Hib : inputBuf (req st1) = inputBuf (req st)).
  { apply (f_equal (fun t =>
      snd (fst (fst (fst (fst (fst (fst (fst t))))))))) in Hunt. exact Hunt. }
  assert (Hflat1 : flatDataSize (req st1) = 0).
  { unfold flatDataSize.
    assert (E1 : fdData (req st1) = fdData (req st)).
    { apply (f_equal (fun t => snd (fst (fst (fst (fst (fst t))))))) in Hunt.
      exact Hunt. }
    assert (E2 : flatData (req st1) = flatData (req st)).
    { apply (f_equal (fun t => snd (fst (fst (fst (fst (fst (fst t)))))))) in Hunt.
      exact Hunt. }
    now rewrite E1, E2, Hfd, Hflat. }
  destruct (header_reads_kept st st1 Hib) as (Eop & Eu & Esz).
  { intros a Ha. apply array_kept_by_parse; try assumption. congruence. }
  assert (Hcases : structured_length op OK sz =
            (if ((op =? _OP_GETXATTR) || (op =? _OP_LISTXATTR)) && negb (sz =? 0)
             then 0 else OutputSize h)).
  { unfold structured_length. rewrite Hh. reflexivity. }
  assert (Hd : dataLength st1 = Returns (structured_length op OK sz)).
  { rewrite <- Hok. apply dataLength_structured_length.
    - now rewrite Eop.
    - intros Hx. rewrite Esz. now apply Hsz. }
  set (dl := structured_length op OK sz) in *. clearbody dl.
  assert (Hdl : 0 <= dl <= OutputSize h).
  { rewrite Hcases. destruct (_ && _); lia. }
  destruct (serializeHeader_core (flatDataSize (req st1)) st1 dl u OutBufArr 0
              (Z.to_nat (OutputSize h + 16)) outputHeaderSize)
    as (st2 & Hs & Hob2 & Hr & _ & _); try assumption; try lia.
  { now rewrite Eu. }
  { cbn [array_of]. lia. }
  exists st2. split; [exact Hs|]. split; [|split].
  - rewrite Hr, Hok, Hflat1. cbn [Z.opp OK].
    replace (16 + dl + 0) with (16 + dl) by ring.
    unfold uint32, uwrap. rewrite Z.mod_small.
    + reflexivity.
    + lia.
  - exact Hcases.
  - rewrite Hob2. cbn [len]. lia.
Qed.

Lemma parse_filenames_Returns (opcode count : Z) (st : state) :
  (count = 1 /\ opcode = _OP_SETXATTR) \/
  1 <= len (arg (req st)) <= cap (arg (req st)) ->
  exists stf, parse_filenames opcode count st = Returns stf.
Proof.
  intros Hcase. unfold parse_filenames.
  destruct ((count =? 1) && (opcode =? _OP_SETXATTR)) eqn:E.
  - destruct (SplitN (bytes_of st (arg (req st))) x00 2) as [|s0 rest] eqn:Es.
    + exfalso. unfold SplitN in Es. cbn [Z.eqb Z.ltb Z.compare] in Es.
      now apply split_loop_nonempty in Es.
    + eauto.
  - destruct Hcase as [[-> ->]|Hlen].
    { now rewrite !Z.eqb_refl in E. }
    assert (Hs : exists a1,
               slice_to (arg (req st)) (len (arg (req st)) - 1) = Returns a1).
    { unfold slice_to.
      replace ((0 <=? len (arg (req st)) - 1)
               && (len (arg (req st)) - 1 <=? cap (arg (req st)))) with true
        by (symmetry; apply andb_true_iff; split; apply Z.leb_le; lia).
      eauto. }
    destruct Hs as [a1 ->]. cbn [bind].
    destruct (count =? 1); eauto.
Qed.

(** C8, as the code has it.  The size the parser compares the frame with
    is the [InputSize] of the registry entry, which counts from the start
    of the frame (the in-header plus the fixed input record), or the size
    of [RenameIn] for a RENAME under rename-swap.  For an opcode other
    than INIT: a shorter frame gets status [EIO] and nothing else; a frame
    that is long enough gets [arg = inputBuf[size:]] when [InputSize > 0],
    and [arg = inputBuf[inHeader_size:]] when [InputSize] is 0 and the
    frame holds the in-header; in both cases [len(arg)] is
    [len(inputBuf)] minus that offset.  (Frames whose filename region is
    empty are left aside: they do not come back from the filename part.) *)
Theorem parse_compares_size_then_cuts_arg
        (ks : InitIn) (st : state) (op : Z) (h : operationHandler)
        (a : array_id) (o l c : nat) :
  inHeader_Opcode st = Returns op ->
  getHandler op = Some h ->
  op <> _OP_INIT ->
  inputBuf (req st) = Slice a o l c ->
  (l <= c)%nat ->
  0 <= InputSize h < 2 ^ 63 ->
  0 <= sizeOfRenameIn < 2 ^ 63 ->
  0 <= OutputSize h ->
  OutputSize h + sizeOfOutHeader <= Z.of_nat outputHeaderSize ->
  Z.of_nat outputHeaderSize < 2 ^ 63 ->
  let inSz := if (op =? _OP_RENAME) && supportsRenameSwap ks
              then sizeOfRenameIn else InputSize h in
  let offset := if InputSize h >? 0 then inSz else sizeOfInHeader in
  (Z.of_nat l < inSz -> parse ks st = Returns (set_status EIO st)) /\
  (inSz <= Z.of_nat l ->
   offset <= Z.of_nat l ->
   (0 < FileNames h ->
    (FileNames h = 1 /\ op = _OP_SETXATTR) \/ offset < Z.of_nat l) ->
   exists st',
     parse ks st = Returns st' /\
     arg (req st') = Slice a (o + Z.to_nat offset) (l - Z.to_nat offset)
                           (c - Z.to_nat offset) /\
     len (arg (req st')) = len (inputBuf (req st)) - offset).
Proof.
  intros Hop Hh Hinit Hib Hlc Hin Hren Hout0 Hout Hcap. cbv zeta.
  set (inSz := if (op =? _OP_RENAME) && supportsRenameSwap ks
               then sizeOfRenameIn else InputSize h).
  set (offset := if InputSize h >? 0 then inSz else sizeOfInHeader).
  assert (HinSz : 0 <= inSz < 2 ^ 63) by (unfold inSz; destruct (_ && _); lia).
  assert (Hoff : 0 <= offset).
  { unfold offset, sizeOfInHeader. destruct (InputSize h >? 0); lia. }
  assert (Hexp : expected_size ks op h = inSz).
  { unfold expected_size, inSz. destruct (_ && _); apply int_small; lia. }
  assert (Hstart :
            parse ks st =
            if Z.of_nat l <? inSz then Returns (set_status EIO st)
            else
              A <- slice_from (Slice a o l c) offset ;;
              stf <- (if FileNames h >? 0
                      then parse_filenames op (FileNames h) (set_arg A st)
                      else Returns (set_arg A st)) ;;
              ob <- slice_to (Slice OutBufArr 0 outputHeaderSize outputHeaderSize)
                             (uintptr (OutputSize h + sizeOfOutHeader)) ;;
              Returns (copy (set_outputBuf ob stf) ob
                            (repeat x00 outputHeaderSize))).
  { unfold parse. rewrite Hop. cbn [bind]. rewrite Hh.
    fold (expected_size ks op h). rewrite Hexp.
    replace (op =? _OP_INIT) with false by (symmetry; now apply Z.eqb_neq).
    cbn [andb]. rewrite Hib. cbn [len].
    unfold offset. destruct (InputSize h >? 0); reflexivity. }
  split.
  - intros Hshort. rewrite Hstart.
    now rewrite (proj2 (Z.ltb_lt _ _) Hshort).
  - intros Hlong Hoffl Hnames. rewrite Hstart.
    rewrite (proj2 (Z.ltb_ge _ _) Hlong).
    unfold slice_from at 1. cbn [len].
    replace ((0 <=? offset) && (offset <=? Z.of_nat l)) with true
      by (symmetry; apply andb_true_iff; split; apply Z.leb_le; lia).
    cbn [bind].
    set (A := Slice a (o + Z.to_nat offset) (l - Z.to_nat offset)
                    (c - Z.to_nat offset)).
    assert (Hstf : exists stf,
               (if FileNames h >? 0
                then parse_filenames op (FileNames h) (set_arg A st)
                else Returns (set_arg A st)) = Returns stf /\
               arg (req stf) = A).
    { destruct (FileNames h >? 0) eqn:Ec.
      - rewrite Z.gtb_ltb in Ec. apply Z.ltb_lt in Ec.
        destruct (parse_filenames_Returns op (FileNames h) (set_arg A st))
          as [stf Hstf].
        + destruct (Hnames Ec) as [Hset|Hmore]; [now left|right].
          cbn [set_arg with_req req arg]. unfold A. cbn [len cap]. lia.
        + exists stf. split; [exact Hstf|].
          now apply parse_filenames_frame in Hstf as (_ & _ & _ & _ & -> & _).
      - exists (set_arg A st). now split. }
    destruct Hstf as (stf & -> & Harg). cbn [bind].
    unfold slice_to. cbn [cap].
    rewrite uintptr_small
      by (change (2 ^ 64) with (2 ^ 63 + 2 ^ 63); unfold sizeOfOutHeader in *; lia).
    replace ((0 <=? OutputSize h + sizeOfOutHeader)
             && (OutputSize h + sizeOfOutHeader <=? Z.of_nat outputHeaderSize))
      with true
      by (symmetry; apply andb_true_iff; split; apply Z.leb_le;
          unfold sizeOfOutHeader in *; lia).
    cbn [bind]. eexists. split; [reflexivity|].
    cbn [copy set_outputBuf set_array with_req req arg].
    rewrite Harg. split; [reflexivity|].
    unfold A. rewrite Hib. cbn [len]. lia.
Qed.

(** *** The early returns of [parse] and the reply *)

(** An unknown opcode: [parse] sets the status and nothing else. *)
Lemma parse_unknown_opcode (ks : InitIn) (st : state) (op : Z) :
  inHeader_Opcode st = Returns op ->
  getHandler op = None ->
  parse ks st = Returns (set_status ENOSYS st).
Proof.
  intros Hop Hnone. unfold parse. rewrite Hop. cbn [bind].
  now rewrite Hnone.
Qed.

(** Without an [outputBuf] there is no reply: [serializeHeader] stops at
    [&r.outputBuf[0]]. *)
Lemma serializeHeader_nil_outputBuf (n : Z) (st : state) (dl : Z) :
  dataLength st = Returns dl ->
  outputBuf (req st) = nil_slice ->
  serializeHeader n st = Panics IndexOutOfRange.
Proof.
  intros Hd Hnil. unfold serializeHeader. rewrite Hd. cbn [bind].
  unfold outHeader. now rewrite Hnil.
Qed.

(** Had the request an [outputBuf], the reply to an unknown opcode would
    be the bare out-header with the negated status. *)
Lemma serializeHeader_unknown_opcode (st : state) (op u sz : Z)
      (a : array_id) (o l c : nat) :
  inHeader_Opcode st = Returns op ->
  inHeader_Unique st = Returns u ->
  (op = _OP_GETXATTR \/ op = _OP_LISTXATTR -> GetXAttrIn_Size st = Returns sz) ->
  getHandler op = None ->
  outputBuf (req st) = Slice a o l c ->
  (1 <= l)%nat ->
  (o + 16 <= List.length (array_of st a))%nat ->
  (16 <= c)%nat ->
  Z.of_nat c < 2 ^ 63 ->
  exists st',
    serializeHeader 0 st = Returns st' /\
    reply_header st' =
      Returns (mkOutHeader sizeOfOutHeader (int32 (- status (req st))) u) /\
    len (outputBuf (req st')) = sizeOfOutHeader.
Proof.
  intros Hop Hu Hsz Hnone Hob Hl Hfit Hc Hc63.
  pose proof (dataLength_structured_length st op sz Hop Hsz) as Hd.
  assert (Hz : structured_length op (status (req st)) sz = 0).
  { unfold structured_length. rewrite Hnone.
    destruct (status (req st) >? OK); [reflexivity|].
    destruct (_ && _); reflexivity. }
  rewrite Hz in Hd.
  destruct (serializeHeader_core 0 st 0 u a o l c Hd Hu Hob Hl Hfit
              ltac:(lia) ltac:(lia) Hc63)
    as (st' & Hs & Hob' & Hr & _ & _).
  exists st'. split; [exact Hs|]. split.
  - rewrite Hr. reflexivity.
  - now rewrite Hob'.
Qed.

(** X13: on a request whose [arg] is nil, as [clear] leaves it, the INIT
    adjustment of lines 196-199 applies to every frame: the frame is never
    a short read and [arg] comes out empty, at the end of the frame. *)
Lemma parse_INIT_on_cleared_request
      (ks : InitIn) (st : state) (h : operationHandler)
      (a : array_id) (o l c : nat) :
  inHeader_Opcode st = Returns _OP_INIT ->
  getHandler _OP_INIT = Some h ->
  arg (req st) = nil_slice ->
  InputSize h > 0 ->
  expected_size ks _OP_INIT h > 0 ->
  FileNames h <= 0 ->
  inputBuf (req st) = Slice a o l c ->
  0 <= OutputSize h ->
  OutputSize h + sizeOfOutHeader <= Z.of_nat outputHeaderSize ->
  Z.of_nat outputHeaderSize < 2 ^ 63 ->
  exists st',
    parse ks st = Returns st' /\
    status (req st') = status (req st) /\
    arg (req st') = Slice a (o + l) 0 (c - l).
Proof.
  intros Hop Hh Harg Hin Hexp Hcount Hib Hout0 Hout Hcap.
  unfold parse. rewrite Hop. cbn [bind]. rewrite Hh.
  fold (expected_size ks _OP_INIT h). rewrite Harg, Z.eqb_refl. cbn [len andb].
  rewrite (proj2 (Z.gtb_lt _ _) (Z.gt_lt _ _ Hexp)).
  rewrite Z.ltb_irrefl.
  rewrite (proj2 (Z.gtb_lt _ _) (Z.gt_lt _ _ Hin)).
  rewrite Hib. unfold slice_from. cbn [len].
  replace ((0 <=? Z.of_nat l) && (Z.of_nat l <=? Z.of_nat l)) with true
    by (symmetry; apply andb_true_iff; split; apply Z.leb_le; lia).
  cbn [bind]. rewrite Nat2Z.id, Nat.sub_diag.
  replace (FileNames h >? 0) with false
    by (symmetry; rewrite Z.gtb_ltb; apply Z.ltb_ge; lia).
  cbn [bind]. unfold slice_to. cbn [cap].
  rewrite uintptr_small
    by (change (2 ^ 64) with (2 ^ 63 + 2 ^ 63); unfold sizeOfOutHeader in *; lia).
  replace ((0 <=? OutputSize h + sizeOfOutHeader)
           && (OutputSize h + sizeOfOutHeader <=? Z.of_nat outputHeaderSize))
    with true
    by (symmetry; apply andb_true_iff; split; apply Z.leb_le;
        unfold sizeOfOutHeader in *; lia).
  cbn [bind]. eexists. split; [reflexivity|]. split; reflexivity.
Qed.

End Pipeline.

(* ================================================================= *)
(** * The claims on concrete frames *)

Section Samples.
#[local] Existing Instance linux_abi.

(** C3: on a frame with the unknown opcode 0xFFFF, [parse] sets the
    status to [ENOSYS] and returns before it has set [outputBuf]; on the
    new (or cleared) request [outputBuf] is nil, and [serializeHeader]
    panics on [&r.outputBuf[0]] instead of writing a header-only reply. *)
Theorem unknown_opcode_ENOSYS_then_no_reply :
  exists st1,
    parse modern_kernel (arrival unknown_frame) = Returns st1 /\
    status (req st1) = ENOSYS /\
    outputBuf (req st1) = nil_slice /\
    serializeHeader (flatDataSize (req st1)) st1 = Panics IndexOutOfRange.
Proof.
  eexists. split; [vm_compute; reflexivity|].
  repeat split; vm_compute; reflexivity.
Qed.

(** C4: a LOOKUP frame that ends with the in-header (an empty filename
    region for a one-filename opcode) makes [parse] panic on
    [r.arg[:len(r.arg)-1]]; an empty frame makes it panic on
    [&r.inputBuf[0]]; and after a frame that [parse] rejects (unknown
    opcode, short read) [serializeHeader] panics on the nil [outputBuf]. *)
Theorem malformed_frames_panic :
  parse modern_kernel (arrival lookup_frame_without_name)
    = Panics SliceBoundsOutOfRange /\
  parse modern_kernel (arrival []) = Panics IndexOutOfRange /\
  serve modern_kernel unknown_frame (fun st => st) = Panics IndexOutOfRange /\
  serve modern_kernel (firstn 48 getattr_frame) (fun st => st)
    = Panics IndexOutOfRange.
Proof. repeat split; vm_compute; reflexivity. Qed.

(** C7: an INIT frame whose [InitIn] is 8 bytes longer than the registry
    declares.  [parse] compares the declared size with [len(r.arg)], and
    [arg] is still nil at that point, so it adopts the received size here
    too: [arg] comes out empty, at offset 112, where keeping the declared
    size 104 would have left the 8 trailing bytes in it. *)
Theorem parse_INIT_adopts_received_size_of_longer_frame :
  len (inputBuf (req (arrival init_frame_long))) = 112 /\
  arg (req (arrival init_frame_long)) = nil_slice /\
  exists st1,
    parse modern_kernel (arrival init_frame_long) = Returns st1 /\
    status (req st1) = OK /\
    arg (req st1) = Slice SmallInputArr 112 0 16 /\
    slice_from (inputBuf (req st1)) 104 = Returns (Slice SmallInputArr 104 8 24).
Proof.
  split; [reflexivity|]. split; [reflexivity|].
  eexists. split; [vm_compute; reflexivity|].
  repeat split; vm_compute; reflexivity.
Qed.

(** C1 fails as stated: for a READ reply that carries a file-descriptor
    range of [2^32] bytes the length field is 16, not [16 + 0 + 2^32]. *)
Lemma length_field_wraps_at_32_bits :
  exists hdr,
    serve modern_kernel read_frame
          (handler_reply OK nil_slice (Some (mkReadResultFd 3 0 (2 ^ 32))))
      = Returns hdr /\
    flatDataSize
      (req (handler_reply OK nil_slice (Some (mkReadResultFd 3 0 (2 ^ 32)))
              (parsed modern_kernel read_frame))) = 2 ^ 32 /\
    Length hdr = 16 /\
    Length hdr <> sizeOfOutHeader + 0 + 2 ^ 32.
Proof.
  eexists. split; [vm_compute; reflexivity|].
  split; [reflexivity|]. split; [reflexivity|]. discriminate.
Qed.

(** C2 fails as stated: a GETXATTR with [Size = 0] whose handler answers
    ENODATA gets a reply without structured data. *)
Lemma xattr_size_query_that_fails_has_no_record :
  GetXAttrIn_Size (parsed modern_kernel (getxattr_frame 0)) = Returns 0 /\
  exists st2,
    serializeHeader 0 (handler_reply ENODATA nil_slice None
                         (parsed modern_kernel (getxattr_frame 0)))
      = Returns st2 /\
    len (outputBuf (req st2)) = sizeOfOutHeader /\
    reply_header st2 = Returns (mkOutHeader 16 (- ENODATA) 7).
Proof.
  split; [vm_compute; reflexivity|].
  eexists. split; [vm_compute; reflexivity|].
  split; vm_compute; reflexivity.
Qed.

(** C6 fails as stated: a frame of exactly 128 bytes fits the inline
    array of 128 bytes, and [setInput] keeps the caller's buffer and
    returns true. *)
Lemma setInput_owns_a_frame_of_128_bytes :
  let frame := frame_of 15 7 (repeat x00 88) in
  let input := Slice (HeapArr 0) 0 128 128 in
  let result := setInput input (mkState [frame] new_request) in
  List.length frame = smallInputBufSize /\
  snd result = true /\
  inputBuf (req (fst result)) = input /\
  bufferPoolInputBuf (req (fst result)) = input.
Proof. repeat split. Qed.

(** C8 fails as stated: an INIT frame of 56 bytes is shorter than the 104
    bytes of the registry entry (in-header plus input record), and [parse]
    does not answer [EIO]: the status stays [OK] and [arg] starts at the
    end of the frame.  And a DESTROY frame (no input record) cut to 20
    bytes is shorter than the in-header, but [parse] compares it with the
    [InputSize] 0 only and then stops at [r.inputBuf[40:]]. *)
Lemma short_INIT_frame_is_not_EIO :
  (getHandler 26 = Some (mkHandler 104 64 0 false) /\
   len (inputBuf (req (arrival init_frame_short))) = 56 /\
   exists st1,
     parse modern_kernel (arrival init_frame_short) = Returns st1 /\
     status (req st1) = OK /\
     status (req st1) <> EIO /\
     arg (req st1) = Slice SmallInputArr 56 0 72) /\
  (getHandler 38 = Some (mkHandler 0 0 0 false) /\
   len (inputBuf (req (arrival (firstn 20 (frame_of 38 7 []))))) = 20 /\
   parse modern_kernel (arrival (firstn 20 (frame_of 38 7 [])))
     = Panics SliceBoundsOutOfRange).
Proof.
  split.
  - split; [reflexivity|]. split; [reflexivity|].
    eexists. split; [vm_compute; reflexivity|].
    split; [reflexivity|]. split; [discriminate|reflexivity].
  - split; [reflexivity|]. split; [reflexivity|]. vm_compute; reflexivity.
Qed.

(** C9 fails as stated: a GETATTR frame whose handler answers [OK] and
    attaches no flat data gets the length [16 + 104], the out-header and
    the [AttrOut] record. *)
Lemma getattr_reply_is_longer_than_the_header :
  exists hdr,
    serve modern_kernel getattr_frame (fun st => st) = Returns hdr /\
    Unique hdr = 7 /\
    Status hdr = 0 /\
    Length hdr = 120 /\
    Length hdr <> sizeOfOutHeader.
Proof.
  eexists. split; [vm_compute; reflexivity|].
  repeat split. discriminate.
Qed.

(** *** The theorems at work *)

(** A GETATTR frame of 56 bytes goes to the inline array; a READ frame
    padded to 200 bytes stays in the caller's buffer. *)
Lemma setInput_copies_below_128_else_owns_witness :
  (snd (setInput (Slice (HeapArr 0) 0 56 56)
                 (mkState [getattr_frame] new_request)) = false /\
   inputBuf (req (fst (setInput (Slice (HeapArr 0) 0 56 56)
                                (mkState [getattr_frame] new_request))))
     = Slice SmallInputArr 0 56 128) /\
  (snd (setInput (Slice (HeapArr 0) 0 200 200)
                 (mkState [frame_of 15 7 (repeat x00 160)] new_request)) = true).
Proof.
  split.
  - destruct (setInput_copies_below_128_else_owns
                (Slice (HeapArr 0) 0 56 56)
                (mkState [getattr_frame] new_request) eq_refl eq_refl)
      as [Hsmall _].
    destruct (Hsmall eq_refl) as (Hfalse & Hin & _).
    split; [exact Hfalse|exact Hin].
  - destruct (setInput_copies_below_128_else_owns
                (Slice (HeapArr 0) 0 200 200)
                (mkState [frame_of 15 7 (repeat x00 160)] new_request)
                eq_refl eq_refl)
      as [_ Hlarge].
    destruct (Hlarge ltac:(vm_compute; discriminate)) as (Htrue & _).
    exact Htrue.
Defined.

(** Scenario S2 of the spec. *)
Lemma parse_SETXATTR_name_before_first_NUL_witness :
  exists st',
    parse modern_kernel (arrival setxattr_frame) = Returns st' /\
    filenames (req st') = Some ["user.foo"%string] /\
    SplitN (bytes_of st' (arg (req st'))) x00 2
      = [list_byte_of_string "user.foo"; [x01; x02; x03; x04]].
Proof.
  destruct (parse_SETXATTR_name_before_first_NUL
              modern_kernel (arrival setxattr_frame) (mkHandler 48 0 1 false)
              (firstn 48 setxattr_frame) (list_byte_of_string "user.foo")
              [x01; x02; x03; x04])
    as (st' & Hp & Hf & _ & Hs).
  - vm_compute; reflexivity.
  - reflexivity.
  - reflexivity.
  - discriminate.
  - discriminate.
  - split; [discriminate|reflexivity].
  - discriminate.
  - discriminate.
  - reflexivity.
  - discriminate.
  - vm_compute; reflexivity.
  - reflexivity.
  - cbn. intuition discriminate.
  - exists st'. split; [exact Hp|]. split; [exact Hf|exact Hs].
Defined.

(** A READ reply with 4096 bytes from a file descriptor. *)
Lemma serializeHeader_fills_out_header_witness :
  exists st',
    serializeHeader 4096
      (handler_reply OK nil_slice (Some (mkReadResultFd 3 0 4096))
                     (parsed modern_kernel read_frame)) = Returns st' /\
    reply_header st' = Returns (mkOutHeader 4112 0 7).
Proof.
  destruct (serializeHeader_fills_out_header
              4096
              (handler_reply OK nil_slice (Some (mkReadResultFd 3 0 4096))
                             (parsed modern_kernel read_frame))
              15 7 0 OutBufArr 0 16 160)
    as (st' & Hs & Hr & _).
  - vm_compute; reflexivity.
  - vm_compute; reflexivity.
  - intros [E|E]; discriminate E.
  - vm_compute; reflexivity.
  - lia.
  - vm_compute. lia.
  - reflexivity.
  - discriminate.
  - discriminate.
  - exists st'. split; [exact Hs|exact Hr].
Defined.

(** Scenarios S5 and S6 of the spec: GETXATTR with [Size = 0] and a
    record of 8 bytes, GETXATTR with [Size = 128] and 42 flat bytes. *)
Lemma serializeHeader_xattr_two_modes_witness :
  (exists st' hdr,
     serializeHeader 0 (parsed modern_kernel (getxattr_frame 0)) = Returns st' /\
     reply_header st' = Returns hdr /\
     len (outputBuf (req st')) = 24 /\ Length hdr = 24) /\
  (exists st' hdr,
     serializeHeader 42 (parsed modern_kernel (getxattr_frame 128)) = Returns st' /\
     reply_header st' = Returns hdr /\
     len (outputBuf (req st')) = 16 /\ Length hdr = 58).
Proof.
  split.
  - destruct (serializeHeader_xattr_two_modes
                0 (parsed modern_kernel (getxattr_frame 0)) 22 7 0
                (mkHandler 48 8 1 false) OutBufArr 0 24 160)
      as (st' & hdr & Hs & Hr & _ & Hzero & _).
    + vm_compute; reflexivity.
    + now left.
    + vm_compute; reflexivity.
    + vm_compute; reflexivity.
    + reflexivity.
    + discriminate.
    + discriminate.
    + vm_compute; reflexivity.
    + lia.
    + vm_compute. lia.
    + reflexivity.
    + destruct (Hzero eq_refl ltac:(vm_compute; discriminate)) as [Hl Hh].
      exists st', hdr. repeat split; assumption.
  - destruct (serializeHeader_xattr_two_modes
                42 (parsed modern_kernel (getxattr_frame 128)) 22 7 128
                (mkHandler 48 8 1 false) OutBufArr 0 24 160)
      as (st' & hdr & Hs & Hr & Hdata & _ & _).
    + vm_compute; reflexivity.
    + now left.
    + vm_compute; reflexivity.
    + vm_compute; reflexivity.
    + reflexivity.
    + discriminate.
    + discriminate.
    + vm_compute; reflexivity.
    + lia.
    + vm_compute. lia.
    + reflexivity.
    + destruct (Hdata ltac:(discriminate)) as [Hl Hh].
      exists st', hdr. repeat split; assumption.
Defined.

(** A GETATTR frame of 56 bytes passes the check and leaves an empty
    [arg] behind the record; its first 48 bytes alone are a short read. *)
Lemma parse_compares_size_then_cuts_arg_witness :
  parse modern_kernel (arrival (firstn 48 getattr_frame))
    = Returns (set_status EIO (arrival (firstn 48 getattr_frame))) /\
  exists st',
    parse modern_kernel (arrival getattr_frame) = Returns st' /\
    arg (req st') = Slice SmallInputArr 56 0 72.
Proof.
  split.
  - destruct (parse_compares_size_then_cuts_arg
                modern_kernel (arrival (firstn 48 getattr_frame)) 3
                (mkHandler 56 104 0 false) SmallInputArr 0 48 128)
      as [Hshort _].
    + vm_compute; reflexivity.
    + reflexivity.
    + discriminate.
    + reflexivity.
    + lia.
    + split; [discriminate|reflexivity].
    + split; [discriminate|reflexivity].
    + discriminate.
    + discriminate.
    + reflexivity.
    + apply Hshort. reflexivity.
  - destruct (parse_compares_size_then_cuts_arg
                modern_kernel (arrival getattr_frame) 3
                (mkHandler 56 104 0 false) SmallInputArr 0 56 128)
      as [_ Hlong].
    + vm_compute; reflexivity.
    + reflexivity.
    + discriminate.
    + reflexivity.
    + lia.
    + split; [discriminate|reflexivity].
    + split; [discriminate|reflexivity].
    + discriminate.
    + discriminate.
    + reflexivity.
    + destruct Hlong as (st' & Hp & Harg & _).
      * discriminate.
      * discriminate.
      * intros Hc. discriminate Hc.
      * exists st'. split; [exact Hp|exact Harg].
Defined.

(** A RENAME has no output record: its reply is the bare out-header. *)
Lemma parse_then_serializeHeader_echoes_unique_witness :
  exists st2,
    serializeHeader (flatDataSize (req (parsed modern_kernel rename_frame)))
                    (parsed modern_kernel rename_frame) = Returns st2 /\
    reply_header st2 = Returns (mkOutHeader 16 0 7).
Proof.
  destruct (parse_then_serializeHeader_echoes_unique
              modern_kernel (arrival rename_frame)
              (parsed modern_kernel rename_frame) 12 7 0
              (mkHandler 48 0 2 false))
    as (st2 & Hs & Hr & _).
  - vm_compute; reflexivity.
  - reflexivity.
  - reflexivity.
  - reflexivity.
  - vm_compute; reflexivity.
  - vm_compute; reflexivity.
  - intros [E|E]; discriminate E.
  - reflexivity.
  - discriminate.
  - discriminate.
  - reflexivity.
  - discriminate.
  - discriminate.
  - reflexivity.
  - exists st2. split; [exact Hs|exact Hr].
Defined.

End Samples.

(* ================================================================= *)
(** * Further properties of [request.go] *)

(** ** Splitting on a separator *)

Lemma IndexByte_Some (s : list byte) (sep : byte) (m : nat) :
  IndexByte s sep = Some m ->
  s = firstn m s ++ sep :: skipn (S m) s /\
  count_byte (firstn m s) sep = 0%nat /\
  count_byte s sep = S (count_byte (skipn (S m) s) sep).
Proof.
  revert m. induction s as [|b s IH]; intros m; simpl; [discriminate|].
  destruct (Byte.eqb b sep) eqn:E.
  - intros [= <-]. apply Byte.byte_dec_bl in E. subst b. simpl.
    repeat split.
  - destruct (IndexByte s sep) as [m'|]; [|discriminate].
    intros [= <-]. destruct (IH m' eq_refl) as (Hs & Hc0 & Hc).
    cbn [firstn skipn count_byte app]. rewrite E. cbn [Nat.add].
    repeat split; try assumption. f_equal. exact Hs.
Qed.

Lemma IndexByte_None (s : list byte) (sep : byte) :
  IndexByte s sep = None -> count_byte s sep = 0%nat.
Proof.
  induction s as [|b s IH]; simpl; [reflexivity|].
  destruct (Byte.eqb b sep); [discriminate|].
  destruct (IndexByte s sep); [discriminate|]. intros _. now apply IH.
Qed.

Lemma count_byte_le_length (s : list byte) (sep : byte) :
  (count_byte s sep <= List.length s)%nat.
Proof.
  induction s as [|b s IH]; simpl; [lia|].
  destruct (Byte.eqb b sep); lia.
Qed.

Lemma split_loop_length (k : nat) (s : list byte) (sep : byte) :
  List.length (split_loop k s sep) = S (Nat.min k (count_byte s sep)).
Proof.
  revert s. induction k as [|k IH]; intros s; [reflexivity|].
  cbn [split_loop]. destruct (IndexByte s sep) as [m|] eqn:E.
  - apply IndexByte_Some in E as (_ & _ & Hc). cbn [List.length].
    rewrite IH, Hc. reflexivity.
  - apply IndexByte_None in E. rewrite E. now rewrite Nat.min_0_r.
Qed.

Lemma join_cons (sep : byte) (p : list byte) (rest : list (list byte)) :
  rest <> [] -> join sep (p :: rest) = p ++ sep :: join sep rest.
Proof. destruct rest; [congruence|reflexivity]. Qed.

Lemma join_split_loop (k : nat) (s : list byte) (sep : byte) :
  join sep (split_loop k s sep) = s.
Proof.
  revert s. induction k as [|k IH]; intros s; [reflexivity|].
  cbn [split_loop]. destruct (IndexByte s sep) as [m|] eqn:E; [|reflexivity].
  rewrite join_cons by apply split_loop_nonempty. rewrite IH.
  apply IndexByte_Some in E as (Hs & _). now rewrite <- Hs.
Qed.

(** [SplitN] with a positive count: at most [n] pieces, one more than
    the separators that were cut; put together again they are the
    input. *)
Lemma SplitN_positive (s : list byte) (sep : byte) (n : Z) :
  0 < n ->
  Z.of_nat (List.length (SplitN s sep n))
    = Z.min (n - 1) (Z.of_nat (count_byte s sep)) + 1 /\
  join sep (SplitN s sep n) = s.
Proof.
  intros Hn. unfold SplitN.
  replace (n =? 0) with false by (symmetry; apply Z.eqb_neq; lia).
  replace (n <? 0) with false by (symmetry; apply Z.ltb_ge; lia).
  split; [|apply join_split_loop].
  rewrite split_loop_length. pose proof (count_byte_le_length s sep).
  destruct (n >? Z.of_nat (List.length s) + 1) eqn:E.
  - rewrite Z.gtb_ltb in E. apply Z.ltb_lt in E. lia.
  - rewrite Z.gtb_ltb in E. apply Z.ltb_ge in E. lia.
Qed.

(** ** What [parse] leaves in the request *)

Section ParserEffects.
Context `{Package}.

Lemma firstn_repeat_le {A : Type} (x : A) (n m : nat) :
  (n <= m)%nat -> firstn n (repeat x m) = repeat x n.
Proof.
  revert m. induction n as [|n IH]; intros [|m] Hle; simpl; try reflexivity.
  - lia.
  - f_equal. apply IH. lia.
Qed.

(** The state [parse] builds at lines 234-235 from the state [stf] that
    the filename part left. *)
Lemma prepared_output (stf : state) (n : Z) :
  0 <= n <= Z.of_nat outputHeaderSize ->
  List.length (outBuf (req stf)) = outputHeaderSize ->
  let ob := outBuf_prefix n in
  let st' := copy (set_outputBuf ob stf) ob (repeat x00 outputHeaderSize) in
  outputBuf (req st') = ob /\
  bytes_of st' ob = repeat x00 (Z.to_nat n) /\
  skipn (Z.to_nat n) (outBuf (req st')) = skipn (Z.to_nat n) (outBuf (req stf)) /\
  List.length (outBuf (req st')) = outputHeaderSize /\
  heap st' = heap stf /\
  untouched_by_parse (req st') = untouched_by_parse (req stf) /\
  status (req st') = status (req stf) /\
  arg (req st') = arg (req stf) /\
  filenames (req st') = filenames (req stf).
Proof.
  intros Hn Hlen. cbv zeta. unfold outBuf_prefix.
  set (k := Z.to_nat n).
  assert (Hk : (k <= outputHeaderSize)%nat) by (unfold k; lia).
  cbn [copy set_outputBuf with_req set_array req heap outputBuf status arg
       filenames untouched_by_parse inflightIndex cancel interrupted inputBuf
       flatData fdData readResult startTime bufferPoolInputBuf
       bufferPoolOutputBuf smallInputBuf outBuf array_of bytes_of].
  rewrite repeat_length, Nat.min_l by assumption.
  rewrite firstn_repeat_le by assumption.
  assert (Hz : List.length (repeat x00 k) = k) by apply repeat_length.
  split; [reflexivity|]. split; [|split; [|split]].
  - rewrite <- Hz at 1. apply (window_splice_same 0). rewrite Hz, Hlen. lia.
  - unfold splice. cbn [firstn app Nat.add]. rewrite Hz.
    rewrite skipn_app, repeat_length, Nat.sub_diag, skipn_all2
      by (rewrite repeat_length; lia).
    reflexivity.
  - rewrite splice_length; [exact Hlen|]. rewrite Hz, Hlen. lia.
  - repeat split.
Qed.

(** X1: whenever [parse] returns, the arrays outside the request, the
    frame ([inputBuf] and the inline input array), the reply payload
    ([flatData], [fdData], [readResult]), [startTime], the two pool
    buffer references, [cancel], [interrupted] and [inflightIndex] are as
    before; and the status is the old one, [ENOSYS] or [EIO]. *)
Theorem parse_keeps_frame_and_payload (ks : InitIn) (st st1 : state) :
  parse ks st = Returns st1 ->
  heap st1 = heap st /\
  untouched_by_parse (req st1) = untouched_by_parse (req st) /\
  (status (req st1) = status (req st) \/
   status (req st1) = ENOSYS \/ status (req st1) = EIO).
Proof.
  intros Hp.
  destruct (inHeader_Opcode st) as [op|f] eqn:Hop.
  2:{ unfold parse in Hp. rewrite Hop in Hp. discriminate. }
  pose proof (parse_inv ks st st1 op Hp Hop) as Hinv.
  destruct (getHandler op) as [h|].
  - cbv zeta in Hinv.
    destruct Hinv as [[_ ->]|[_ (a & stf & ob & _ & Hf & Hob & ->)]].
    { repeat split. right. now right. }
    assert (Hstf : heap stf = heap st /\
                   untouched_by_parse (req stf) = untouched_by_parse (req st) /\
                   (status (req stf) = status (req st) \/ status (req stf) = EIO)).
    { destruct (FileNames h >? 0).
      - apply parse_filenames_frame in Hf as (Hheap & Hunt & _ & _ & _ & Hst).
        repeat split; assumption.
      - subst stf. repeat split. now left. }
    destruct Hstf as (Hheap & Hunt & Hst).
    unfold slice_to in Hob.
    destruct (_ && _) in Hob; [|discriminate]. injection Hob as <-.
    cbn [copy set_outputBuf with_req set_array req heap status
         untouched_by_parse inflightIndex cancel interrupted inputBuf flatData
         fdData readResult startTime bufferPoolInputBuf bufferPoolOutputBuf
         smallInputBuf].
    split; [exact Hheap|]. split; [exact Hunt|].
    destruct Hst as [Hst|Hst]; [now left|right; now right].
  - subst st1. repeat split. right. now left.
Qed.

(** X2: when [parse] returns for an opcode of the registry, either it has
    stopped at the short read (status [EIO], nothing else changed), or
    [outputBuf] is [outBuf[:OutputSize+16]] and all of its bytes are 0,
    whatever the output array held from an earlier reply; the bytes of
    the array behind it are left as they were. *)
Theorem parse_hands_out_zeroed_outputBuf
        (ks : InitIn) (st st1 : state) (op : Z) (h : operationHandler) :
  parse ks st = Returns st1 ->
  inHeader_Opcode st = Returns op ->
  getHandler op = Some h ->
  List.length (outBuf (req st)) = outputHeaderSize ->
  st1 = set_status EIO st \/
  (0 <= uintptr (OutputSize h + sizeOfOutHeader) <= Z.of_nat outputHeaderSize /\
   outputBuf (req st1) = outBuf_prefix (uintptr (OutputSize h + sizeOfOutHeader)) /\
   bytes_of st1 (outputBuf (req st1))
     = repeat x00 (Z.to_nat (uintptr (OutputSize h + sizeOfOutHeader))) /\
   skipn (Z.to_nat (uintptr (OutputSize h + sizeOfOutHeader))) (outBuf (req st1))
     = skipn (Z.to_nat (uintptr (OutputSize h + sizeOfOutHeader)))
             (outBuf (req st))).
Proof.
  intros Hp Hop Hh Hlen.
  pose proof (parse_inv ks st st1 op Hp Hop) as Hinv. rewrite Hh in Hinv.
  cbv zeta in Hinv.
  destruct Hinv as [[_ ->]|[_ (a & stf & ob & _ & Hf & Hob & ->)]];
    [now left|right].
  assert (Hstf : outBuf (req stf) = outBuf (req st)).
  { destruct (FileNames h >? 0).
    - now apply parse_filenames_frame in Hf as (_ & _ & Hout & _).
    - now subst stf. }
  unfold slice_to in Hob. cbn [cap] in Hob.
  destruct ((0 <=? uintptr (OutputSize h + sizeOfOutHeader))
            && (uintptr (OutputSize h + sizeOfOutHeader)
                <=? Z.of_nat outputHeaderSize)) eqn:E; [|discriminate].
  apply andb_true_iff in E as [E1 E2]. apply Z.leb_le in E1, E2.
  injection Hob as <-.
  destruct (prepared_output stf (uintptr (OutputSize h + sizeOfOutHeader)))
    as (Hob' & Hbytes & Hrest & _); [lia|congruence|].
  cbv zeta in Hob', Hbytes, Hrest. unfold outBuf_prefix in *.
  split; [lia|]. split; [exact Hob'|]. split.
  - rewrite Hob'. exact Hbytes.
  - rewrite Hrest. now rewrite Hstf.
Qed.

End ParserEffects.

(** ** The filenames *)

Section Filenames.
Context `{Package}.

(** A frame that passes the length check: [parse] cuts [arg] behind
    [front] and goes on with the filename part. *)
Lemma parse_past_checks (ks : InitIn) (st : state) (op : Z)
      (h : operationHandler) (a : array_id) (o l c : nat)
      (front region : list byte) :
  inHeader_Opcode st = Returns op ->
  getHandler op = Some h ->
  op <> _OP_INIT ->
  inputBuf (req st) = Slice a o l c ->
  bytes_of st (Slice a o l c) = front ++ region ->
  List.length (front ++ region) = l ->
  Z.of_nat (List.length front)
    = (if InputSize h >? 0 then expected_size ks op h else sizeOfInHeader) ->
  expected_size ks op h <= Z.of_nat l ->
  0 <= OutputSize h ->
  OutputSize h + sizeOfOutHeader <= Z.of_nat outputHeaderSize ->
  Z.of_nat outputHeaderSize < 2 ^ 63 ->
  let A := Slice a (o + List.length front) (l - List.length front)
                 (c - List.length front) in
  let ob := outBuf_prefix (OutputSize h + sizeOfOutHeader) in
  bytes_of st A = region /\
  (l - List.length front = List.length region)%nat /\
  forall stf,
    (if FileNames h >? 0
     then parse_filenames op (FileNames h) (set_arg A st)
     else Returns (set_arg A st)) = Returns stf ->
    parse ks st
    = Returns (copy (set_outputBuf ob stf) ob (repeat x00 outputHeaderSize)).
Proof.
  intros Hop Hh Hinit Hib Hbytes Hlen Hfront Hexp Hout0 Hout Hcap. cbv zeta.
  set (k := List.length front) in *.
  assert (Hk : (k <= l)%nat) by (rewrite length_app in Hlen; fold k in Hlen; lia).
  split; [now apply (bytes_of_tail st a o l c k front)|].
  split; [rewrite length_app in Hlen; fold k in Hlen; lia|].
  intros stf Hstf.
  unfold parse. rewrite Hop. cbn [bind]. rewrite Hh.
  fold (expected_size ks op h).
  replace (op =? _OP_INIT) with false by (symmetry; now apply Z.eqb_neq).
  cbn [andb]. rewrite Hib. cbn [len].
  rewrite (proj2 (Z.ltb_ge _ _) Hexp).
  assert (Hslice :
            (if InputSize h >? 0
             then slice_from (Slice a o l c) (expected_size ks op h)
             else slice_from (Slice a o l c) sizeOfInHeader)
            = Returns (Slice a (o + k) (l - k) (c - k))).
  { assert (Hgen : forall z, z = Z.of_nat k ->
              slice_from (Slice a o l c) z
              = Returns (Slice a (o + k) (l - k) (c - k))).
    { intros z ->. unfold slice_from. cbn [len].
      replace ((0 <=? Z.of_nat k) && (Z.of_nat k <=? Z.of_nat l)) with true
        by (symmetry; apply andb_true_iff; split; apply Z.leb_le; lia).
      rewrite Nat2Z.id. reflexivity. }
    destruct (InputSize h >? 0); apply Hgen; lia. }
  rewrite Hslice. cbn [bind]. rewrite Hstf. cbn [bind].
  unfold slice_to. cbn [cap].
  rewrite uintptr_small
    by (change (2 ^ 64) with (2 ^ 63 + 2 ^ 63); unfold sizeOfOutHeader in *; lia).
  replace ((0 <=? OutputSize h + sizeOfOutHeader)
           && (OutputSize h + sizeOfOutHeader <=? Z.of_nat outputHeaderSize))
    with true
    by (symmetry; apply andb_true_iff; split; apply Z.leb_le;
        unfold sizeOfOutHeader in *; lia).
  reflexivity.
Qed.

(** The bytes of [s[:len(s)-1]]. *)
Lemma bytes_of_without_last (st : state) (a : array_id) (o l c : nat)
      (body : list byte) (b : byte) :
  bytes_of st (Slice a o l c) = body ++ [b] ->
  l = List.length (body ++ [b]) ->
  bytes_of st (Slice a o (l - 1) c) = body.
Proof.
  cbn [bytes_of]. intros Hb Hl. rewrite length_app in Hl. cbn in Hl.
  replace (l - 1)%nat with (List.length body) by lia.
  apply (f_equal (firstn (List.length body))) in Hb.
  rewrite firstn_firstn, Nat.min_l in Hb by lia.
  rewrite Hb, firstn_app, Nat.sub_diag, firstn_all. cbn [firstn].
  apply app_nil_r.
Qed.

(** X3: an opcode with one filename, other than SETXATTR: the filename
    is [arg] without its last byte, whatever that byte is and whatever
    the bytes before it are (a NUL among them stays in the name); the
    status is left alone. *)
Theorem parse_one_filename_is_arg_without_last_byte
        (ks : InitIn) (st : state) (op : Z) (h : operationHandler)
        (a : array_id) (o l c : nat) (front name : list byte) (b : byte) :
  inHeader_Opcode st = Returns op ->
  getHandler op = Some h ->
  op <> _OP_INIT ->
  op <> _OP_SETXATTR ->
  FileNames h = 1 ->
  inputBuf (req st) = Slice a o l c ->
  (l <= c)%nat ->
  bytes_of st (Slice a o l c) = front ++ name ++ [b] ->
  List.length (front ++ name ++ [b]) = l ->
  Z.of_nat (List.length front)
    = (if InputSize h >? 0 then expected_size ks op h else sizeOfInHeader) ->
  expected_size ks op h <= Z.of_nat l ->
  0 <= OutputSize h ->
  OutputSize h + sizeOfOutHeader <= Z.of_nat outputHeaderSize ->
  Z.of_nat outputHeaderSize < 2 ^ 63 ->
  exists st',
    parse ks st = Returns st' /\
    filenames (req st') = Some [string_of_bytes name] /\
    status (req st') = status (req st) /\
    len (arg (req st')) = Z.of_nat (List.length name) + 1.
Proof.
  intros Hop Hh Hinit Hset Hcount Hib Hlc Hbytes Hlen Hfront Hexp Hout0 Hout Hcap.
  destruct (parse_past_checks ks st op h a o l c front (name ++ [b])
              Hop Hh Hinit Hib Hbytes Hlen Hfront Hexp Hout0 Hout Hcap)
    as (Harg & Hl & Hrun).
  set (k := List.length front) in *.
  set (A := Slice a (o + k) (l - k) (c - k)) in *.
  assert (Hlast : bytes_of st (Slice a (o + k) (l - k - 1) (c - k)) = name).
  { apply (bytes_of_without_last st a (o + k) (l - k) (c - k) name b Harg).
    exact Hl. }
  rewrite length_app in Hl. cbn [List.length] in Hl.
  eexists. split.
  - apply Hrun. rewrite Hcount. cbn [Z.gtb Z.compare].
    unfold parse_filenames.
    replace (op =? _OP_SETXATTR) with false by (symmetry; now apply Z.eqb_neq).
    cbn [Z.eqb Pos.eqb andb set_arg with_req req arg].
    unfold A at 1 2. unfold slice_to. cbn [len cap].
    replace ((0 <=? Z.of_nat (l - k) - 1)
             && (Z.of_nat (l - k) - 1 <=? Z.of_nat (c - k))) with true
      by (symmetry; apply andb_true_iff; split; apply Z.leb_le; lia).
    cbn [bind].
    replace (Z.to_nat (Z.of_nat (l - k) - 1)) with (l - k - 1)%nat by lia.
    replace (bytes_of (set_arg A st) (Slice a (o + k) (l - k - 1) (c - k)))
      with (bytes_of st (Slice a (o + k) (l - k - 1) (c - k))) by reflexivity.
    rewrite Hlast. reflexivity.
  - split; [reflexivity|]. split; [reflexivity|].
    cbn [copy set_outputBuf outBuf_prefix set_array set_filenames set_arg
         with_req req arg]. unfold A. cbn [len]. lia.
Qed.

Lemma parse_filenames_several (op count : Z) (st : state)
      (a : array_id) (o l c : nat) (body : list byte) (b : byte) :
  2 <= count ->
  arg (req st) = Slice a o l c ->
  (l <= c)%nat ->
  bytes_of st (Slice a o l c) = body ++ [b] ->
  l = List.length (body ++ [b]) ->
  parse_filenames op count st
  = Returns
      (if negb (Z.of_nat (List.length (SplitN body x00 count)) =? count)
       then set_status EIO
              (set_filenames (Some (map string_of_bytes (SplitN body x00 count))) st)
       else set_filenames (Some (map string_of_bytes (SplitN body x00 count))) st).
Proof.
  intros Hcount Harg Hlc Hbytes Hl. unfold parse_filenames.
  replace (count =? 1) with false by (symmetry; apply Z.eqb_neq; lia).
  cbn [andb]. rewrite Harg. unfold slice_to. cbn [len cap].
  assert (Hl1 : (1 <= l)%nat) by (rewrite Hl, length_app; cbn; lia).
  replace ((0 <=? Z.of_nat l - 1) && (Z.of_nat l - 1 <=? Z.of_nat c)) with true
    by (symmetry; apply andb_true_iff; split; apply Z.leb_le; lia).
  cbn [bind]. replace (Z.to_nat (Z.of_nat l - 1)) with (l - 1)%nat by lia.
  rewrite (bytes_of_without_last st a o l c body b Hbytes Hl).
  reflexivity.
Qed.

(** X4: an opcode with two (or more) filenames: [arg] without its last
    byte is split on NUL into at most [count] names; there is one name
    more than the NULs that were cut, the names put together again with
    NUL between them are [arg] without its last byte, and the status
    becomes [EIO] exactly when there are fewer than [count - 1] NULs to
    cut at (it is left alone otherwise).  In both cases [outputBuf] is
    set. *)
Theorem parse_several_filenames_split_on_NUL
        (ks : InitIn) (st : state) (op : Z) (h : operationHandler)
        (a : array_id) (o l c : nat) (front body : list byte) (b : byte) :
  inHeader_Opcode st = Returns op ->
  getHandler op = Some h ->
  op <> _OP_INIT ->
  2 <= FileNames h ->
  inputBuf (req st) = Slice a o l c ->
  (l <= c)%nat ->
  bytes_of st (Slice a o l c) = front ++ body ++ [b] ->
  List.length (front ++ body ++ [b]) = l ->
  Z.of_nat (List.length front)
    = (if InputSize h >? 0 then expected_size ks op h else sizeOfInHeader) ->
  expected_size ks op h <= Z.of_nat l ->
  0 <= OutputSize h ->
  OutputSize h + sizeOfOutHeader <= Z.of_nat outputHeaderSize ->
  Z.of_nat outputHeaderSize < 2 ^ 63 ->
  exists st' names,
    parse ks st = Returns st' /\
    filenames (req st') = Some names /\
    Z.of_nat (List.length names)
      = Z.min (FileNames h - 1) (Z.of_nat (count_byte body x00)) + 1 /\
    join x00 (map list_byte_of_string names) = body /\
    (FileNames h - 1 <= Z.of_nat (count_byte body x00) ->
     status (req st') = status (req st)) /\
    (Z.of_nat (count_byte body x00) < FileNames h - 1 ->
     status (req st') = EIO) /\
    outputBuf (req st') = outBuf_prefix (OutputSize h + sizeOfOutHeader).
Proof.
  intros Hop Hh Hinit Hcount Hib Hlc Hbytes Hlen Hfront Hexp Hout0 Hout Hcap.
  destruct (parse_past_checks ks st op h a o l c front (body ++ [b])
              Hop Hh Hinit Hib Hbytes Hlen Hfront Hexp Hout0 Hout Hcap)
    as (Harg & Hl & Hrun).
  set (k := List.length front) in *.
  set (A := Slice a (o + k) (l - k) (c - k)) in *.
  destruct (SplitN_positive body x00 (FileNames h) ltac:(lia)) as [Hn Hjoin].
  set (pieces := SplitN body x00 (FileNames h)) in *.
  assert (Hf : parse_filenames op (FileNames h) (set_arg A st)
               = Returns
                   (if negb (Z.of_nat (List.length pieces) =? FileNames h)
                    then set_status EIO
                           (set_filenames (Some (map string_of_bytes pieces))
                                          (set_arg A st))
                    else set_filenames (Some (map string_of_bytes pieces))
                                       (set_arg A st))).
  { apply (parse_filenames_several op (FileNames h) (set_arg A st)
             a (o + k) (l - k) (c - k) body b); try assumption.
    - reflexivity.
    - lia. }
  eexists. exists (map string_of_bytes pieces). split.
  - apply Hrun. replace (FileNames h >? 0) with true
      by (symmetry; rewrite Z.gtb_ltb; apply Z.ltb_lt; lia).
    exact Hf.
  - assert (Hroundtrip : map list_byte_of_string (map string_of_bytes pieces)
                         = pieces).
    { rewrite map_map. rewrite <- (map_id pieces) at 2. apply map_ext.
      intros x. apply list_byte_of_string_of_list_byte. }
    rewrite length_map, Hroundtrip.
    destruct (Z.of_nat (List.length pieces) =? FileNames h) eqn:E;
      cbn [negb]; (split; [reflexivity|]); (split; [exact Hn|]);
      (split; [exact Hjoin|]).
    + apply Z.eqb_eq in E. split; [reflexivity|]. split; [lia|reflexivity].
    + apply Z.eqb_neq in E. split; [lia|]. split; reflexivity.
Qed.

Lemma count_byte_0_IndexByte (s : list byte) (sep : byte) :
  count_byte s sep = 0%nat -> IndexByte s sep = None.
Proof.
  induction s as [|b s IH]; simpl; [reflexivity|].
  destruct (Byte.eqb b sep); [discriminate|].
  intros Hc. now rewrite IH.
Qed.

(** X5: the argument region of a SETXATTR frame without any NUL (the
    empty region too): [parse] returns, the one filename is the whole
    region, and the status is left alone. *)
Theorem parse_SETXATTR_without_NUL_takes_whole_arg
        (ks : InitIn) (st : state) (h : operationHandler)
        (a : array_id) (o l c : nat) (front region : list byte) :
  inHeader_Opcode st = Returns _OP_SETXATTR ->
  getHandler _OP_SETXATTR = Some h ->
  _OP_SETXATTR <> _OP_INIT ->
  FileNames h = 1 ->
  inputBuf (req st) = Slice a o l c ->
  bytes_of st (Slice a o l c) = front ++ region ->
  List.length (front ++ region) = l ->
  Z.of_nat (List.length front)
    = (if InputSize h >? 0 then expected_size ks _OP_SETXATTR h
       else sizeOfInHeader) ->
  expected_size ks _OP_SETXATTR h <= Z.of_nat l ->
  0 <= OutputSize h ->
  OutputSize h + sizeOfOutHeader <= Z.of_nat outputHeaderSize ->
  Z.of_nat outputHeaderSize < 2 ^ 63 ->
  count_byte region x00 = 0%nat ->
  exists st',
    parse ks st = Returns st' /\
    filenames (req st') = Some [string_of_bytes region] /\
    status (req st') = status (req st).
Proof.
  intros Hop Hh Hinit Hcount Hib Hbytes Hlen Hfront Hexp Hout0 Hout Hcap Hnul.
  destruct (parse_past_checks ks st _OP_SETXATTR h a o l c front region
              Hop Hh Hinit Hib Hbytes Hlen Hfront Hexp Hout0 Hout Hcap)
    as (Harg & _ & Hrun).
  set (A := Slice a (o + List.length front) (l - List.length front)
                  (c - List.length front)) in *.
  assert (Hsplit : SplitN region x00 2 = [region]).
  { unfold SplitN. cbn [Z.eqb Z.ltb Z.compare].
    destruct (2 >? Z.of_nat (List.length region) + 1).
    - replace (Z.to_nat (Z.of_nat (List.length region) + 1 - 1))
        with (List.length region) by lia.
      destruct region; [reflexivity|].
      cbn [List.length split_loop]. now rewrite count_byte_0_IndexByte.
    - change (Z.to_nat (2 - 1)) with 1%nat. cbn [split_loop].
      now rewrite count_byte_0_IndexByte. }
  eexists. split.
  - apply Hrun. rewrite Hcount. cbn [Z.gtb Z.compare].
    unfold parse_filenames. rewrite !Z.eqb_refl. cbn [andb].
    cbn [set_arg with_req req arg].
    replace (bytes_of (set_arg A st) A) with (bytes_of st A) by reflexivity.
    rewrite Harg, Hsplit. reflexivity.
  - split; reflexivity.
Qed.

End Filenames.

(** ** What [serializeHeader] writes *)

Section SerializerEffects.
Context `{Package}.

Lemma splice_outside (p lo hi : nat) (bs mem : list byte) :
  (p + List.length bs <= List.length mem)%nat ->
  (lo <= p)%nat ->
  (p + List.length bs <= hi)%nat ->
  firstn lo (splice p bs mem) = firstn lo mem /\
  skipn hi (splice p bs mem) = skipn hi mem.
Proof.
  intros Hfit Hlo Hhi. split; apply nth_error_ext; intros i.
  - rewrite !nth_error_firstn. destruct (i <? lo)%nat eqn:E; [|reflexivity].
    apply Nat.ltb_lt in E. rewrite nth_error_splice by assumption.
    replace (i <? p)%nat with true by (symmetry; apply Nat.ltb_lt; lia).
    reflexivity.
  - rewrite !nth_error_skipn, nth_error_splice by assumption.
    replace (hi + i <? p)%nat with false by (symmetry; apply Nat.ltb_ge; lia).
    replace (hi + i <? p + List.length bs)%nat with false
      by (symmetry; apply Nat.ltb_ge; lia).
    reflexivity.
Qed.

Lemma store_writes_within (st st' : state) (a : array_id) (o k lo hi : nat)
      (bs : list byte) :
  store st (a, o) k bs = Returns st' ->
  (lo <= o + k)%nat ->
  (o + k + List.length bs <= hi)%nat ->
  (0 < List.length bs)%nat ->
  writes_within a lo hi st st'.
Proof.
  unfold store. cbn [fst snd].
  destruct (o + k + List.length bs <=? List.length (array_of st a))%nat eqn:E;
    [|discriminate].
  apply Nat.leb_le in E. intros [= <-] Hlo Hhi Hbs.
  assert (Halloc : allocated st a) by (apply nonempty_allocated; lia).
  unfold writes_within. rewrite array_of_set_array_same by assumption.
  destruct (splice_outside (o + k) lo hi bs (array_of st a) E Hlo Hhi)
    as [Hf Hs].
  split; [apply fields_set_array|]. split.
  - intros b Hb. apply array_of_set_array_other. congruence.
  - split; [now apply splice_length|]. now split.
Qed.

Lemma writes_within_trans (a : array_id) (lo hi : nat) (st1 st2 st3 : state) :
  writes_within a lo hi st1 st2 ->
  writes_within a lo hi st2 st3 ->
  writes_within a lo hi st1 st3.
Proof.
  intros (F1 & O1 & L1 & A1 & B1) (F2 & O2 & L2 & A2 & B2).
  unfold writes_within. repeat split; try congruence.
  intros b Hb. rewrite O2, O1 by assumption. reflexivity.
Qed.

(** What a returning [serializeHeader] has done, step by step. *)
Lemma serializeHeader_inv (n : Z) (st st' : state) :
  serializeHeader n st = Returns st' ->
  exists dl a o l c st3,
    dataLength st = Returns dl /\
    outputBuf (req st) = Slice a o l c /\
    (1 <= l)%nat /\
    writes_within a o (o + 16) st st3 /\
    0 <= uintptr (dl + sizeOfOutHeader) <= Z.of_nat c /\
    st' = set_outputBuf
            (Slice a o (Z.to_nat (uintptr (dl + sizeOfOutHeader))) c) st3.
Proof.
  unfold serializeHeader. intros Hs.
  destruct (dataLength st) as [dl|f]; [|discriminate]. cbn [bind] in Hs.
  unfold outHeader in Hs.
  destruct (outputBuf (req st)) as [|a o l c] eqn:Hob; [discriminate|].
  cbn [addr0] in Hs. destruct (l =? 0)%nat eqn:El; [discriminate|].
  apply Nat.eqb_neq in El. cbn [bind] in Hs.
  destruct (inHeader_Unique st) as [u|f]; [|discriminate]. cbn [bind] in Hs.
  destruct (store st (a, o) OutHeader_Unique_offset _) as [st1|f] eqn:S1;
    [|discriminate]. cbn [bind] in Hs.
  destruct (store st1 (a, o) OutHeader_Status_offset _) as [st2|f] eqn:S2;
    [|discriminate]. cbn [bind] in Hs.
  destruct (store st2 (a, o) OutHeader_Length_offset _) as [st3|f] eqn:S3;
    [|discriminate]. cbn [bind] in Hs.
  apply store_writes_within with (lo := o) (hi := (o + 16)%nat) in S1, S2, S3;
    try (rewrite ?le_encode_length;
         unfold OutHeader_Unique_offset, OutHeader_Status_offset,
           OutHeader_Length_offset; lia).
  assert (W : writes_within a o (o + 16) st st3)
    by (eapply writes_within_trans; [eapply writes_within_trans|]; eassumption).
  assert (Hob3 : outputBuf (req st3) = Slice a o l c).
  { destruct W as (F & _).
    apply (f_equal (fun t =>
      snd (fst (fst (fst (fst (fst (fst (fst (fst (fst t))))))))))) in F.
    cbn in F. now rewrite F. }
  rewrite Hob3 in Hs. unfold slice_to in Hs. cbn [cap] in Hs.
  destruct ((0 <=? uintptr (dl + sizeOfOutHeader))
            && (uintptr (dl + sizeOfOutHeader) <=? Z.of_nat c)) eqn:E;
    [|discriminate].
  apply andb_true_iff in E as [E1 E2]. apply Z.leb_le in E1, E2.
  cbn [bind] in Hs. injection Hs as <-.
  exists dl, a, o, l, c, st3.
  split; [reflexivity|]. split; [reflexivity|]. split; [lia|].
  split; [exact W|]. split; [lia|reflexivity].
Qed.

(** X6: when [serializeHeader] returns, it has written nothing but the 16
    header bytes at the start of [outputBuf] and the length of
    [outputBuf]: the structured record behind the header, the bytes
    before the slice, every other array and every other field of the
    request (status, frame, [arg], filenames, payload, pool buffers) are
    as they were. *)
Theorem serializeHeader_writes_only_the_header
        (n : Z) (st st' : state) (a : array_id) (o l c : nat) :
  serializeHeader n st = Returns st' ->
  outputBuf (req st) = Slice a o l c ->
  (exists l', outputBuf (req st') = Slice a o l' c) /\
  all_but_outputBuf (req st') = all_but_outputBuf (req st) /\
  (forall b, b <> a -> array_of st' b = array_of st b) /\
  List.length (array_of st' a) = List.length (array_of st a) /\
  firstn o (array_of st' a) = firstn o (array_of st a) /\
  skipn (o + 16) (array_of st' a) = skipn (o + 16) (array_of st a).
Proof.
  intros Hs Hob.
  destruct (serializeHeader_inv n st st' Hs)
    as (dl & a' & o' & l' & c' & st3 & _ & Hob' & _ & W & _ & ->).
  rewrite Hob in Hob'. injection Hob' as <- <- <- <-.
  destruct W as (F & Hother & Hlen & Hfirst & Hskip).
  assert (Harr : forall b, array_of (set_outputBuf
                    (Slice a o (Z.to_nat (uintptr (dl + sizeOfOutHeader))) c) st3) b
                  = array_of st3 b) by (intros b; now apply array_of_with_fields).
  split; [eexists; reflexivity|]. split.
  - cbn [set_outputBuf with_req req all_but_outputBuf inflightIndex cancel
         interrupted inputBuf arg filenames status flatData fdData readResult
         startTime bufferPoolInputBuf bufferPoolOutputBuf].
    unfold fields in F. unfold all_but_outputBuf.
    injection F as -> -> -> -> _ -> -> -> -> -> -> -> -> ->. reflexivity.
  - rewrite !Harr. split; [|now repeat split].
    intros b Hb. rewrite Harr. now apply Hother.
Qed.

Lemma dataLength_failure (st : state) (dl : Z) :
  dataLength st = Returns dl -> status (req st) > OK -> dl = 0.
Proof.
  unfold dataLength. intros Hd Hst.
  destruct (inHeader_Opcode st) as [op|f]; [|discriminate]. cbn [bind] in Hd.
  rewrite (proj2 (Z.gtb_lt _ _) (Z.gt_lt _ _ Hst)) in Hd.
  destruct (_ || _).
  - destruct (GetXAttrIn_Size st) as [sz|f]; [|discriminate].
    cbn [bind] in Hd. destruct (negb _); now inversion Hd.
  - now inversion Hd.
Qed.

(** X7: a reply with a failure status ([status > OK]) is cut to the 16
    bytes of the out-header whenever [serializeHeader] returns, and
    [outData] then panics: there is no structured record to point at. *)
Theorem failure_reply_has_no_outData (n : Z) (st st' : state) :
  serializeHeader n st = Returns st' ->
  status (req st) > OK ->
  len (outputBuf (req st')) = sizeOfOutHeader /\
  outData st' = Panics IndexOutOfRange.
Proof.
  intros Hs Hst.
  destruct (serializeHeader_inv n st st' Hs)
    as (dl & a & o & l & c & st3 & Hd & _ & _ & _ & _ & ->).
  rewrite (dataLength_failure st dl Hd Hst).
  unfold outData. cbn [set_outputBuf with_req req outputBuf len addr_at].
  change (uintptr (0 + sizeOfOutHeader)) with 16. split; reflexivity.
Qed.

(** X8: a request without [outputBuf], which is how the two early returns
    of [parse] (unknown opcode, short read) leave a new or cleared
    request, gets no reply: [serializeHeader] never returns on it. *)
Theorem early_return_of_parse_leaves_no_reply
        (ks : InitIn) (st : state) (op : Z) :
  outputBuf (req st) = nil_slice ->
  inHeader_Opcode st = Returns op ->
  (getHandler op = None \/
   exists h, getHandler op = Some h /\ op <> _OP_INIT /\
             len (inputBuf (req st)) < expected_size ks op h) ->
  exists st1,
    parse ks st = Returns st1 /\
    (status (req st1) = ENOSYS \/ status (req st1) = EIO) /\
    outputBuf (req st1) = nil_slice /\
    forall n, exists f, serializeHeader n st1 = Panics f.
Proof.
  intros Hnil Hop Hcase.
  assert (Hno : forall st1 n, outputBuf (req st1) = nil_slice ->
                              exists f, serializeHeader n st1 = Panics f).
  { intros st1 n Hn. unfold serializeHeader.
    destruct (dataLength st1) as [dl|f]; cbn [bind]; [|eauto].
    unfold outHeader. rewrite Hn. cbn [addr0 bind]. eauto. }
  destruct Hcase as [Hnone|(h & Hh & Hinit & Hshort)].
  - exists (set_status ENOSYS st).
    split; [now apply (parse_unknown_opcode ks st op)|].
    split; [now left|]. split; [exact Hnil|].
    intros n. now apply Hno.
  - exists (set_status EIO st). split.
    + unfold parse. rewrite Hop. cbn [bind]. rewrite Hh.
      fold (expected_size ks op h).
      replace (op =? _OP_INIT) with false by (symmetry; now apply Z.eqb_neq).
      cbn [andb]. now rewrite (proj2 (Z.ltb_lt _ _) Hshort).
    + split; [now right|]. split; [exact Hnil|].
      intros n. now apply Hno.
Qed.

End SerializerEffects.

(** ** The reply to a frame with too few filenames *)

Section MismatchReply.
Context `{Package}.


End MismatchReply.

(** ** The frame after [setInput], and a request that is used again *)

Section InputEffects.
Context `{Package}.

Lemma window_splice_inside (p q n : nat) (bs mem : list byte) :
  (p + List.length bs <= List.length mem)%nat ->
  (p <= q)%nat ->
  (q + n <= p + List.length bs)%nat ->
  firstn n (skipn q (splice p bs mem)) = firstn n (skipn (q - p) bs).
Proof.
  intros Hfit Hpq Hin. apply nth_error_ext. intros i.
  rewrite !nth_error_firstn, !nth_error_skipn, nth_error_splice by assumption.
  destruct (i <? n)%nat eqn:E; [|reflexivity]. apply Nat.ltb_lt in E.
  replace (q + i <? p)%nat with false by (symmetry; apply Nat.ltb_ge; lia).
  replace (q + i <? p + List.length bs)%nat with true
    by (symmetry; apply Nat.ltb_lt; lia).
  f_equal. lia.
Qed.

Lemma window_of_window {A : Type} (n q l : nat) (X : list A) :
  (q + n <= l)%nat ->
  firstn n (skipn q (firstn l X)) = firstn n (skipn q X).
Proof.
  intros Hin. apply nth_error_ext. intros i.
  rewrite !nth_error_firstn, !nth_error_skipn, nth_error_firstn.
  destruct (i <? n)%nat eqn:E; [|reflexivity]. apply Nat.ltb_lt in E.
  replace (q + i <? l)%nat with true by (symmetry; apply Nat.ltb_lt; lia).
  reflexivity.
Qed.

(** The inline array after the copy of a frame of fewer than 128 bytes. *)
Lemma setInput_inline_array (input : slice) (st : state) :
  List.length (smallInputBuf (req st)) = smallInputBufSize ->
  List.length (bytes_of st input) = Z.to_nat (len input) ->
  len input < 128 ->
  inputBuf (req (fst (setInput input st)))
    = Slice SmallInputArr 0 (Z.to_nat (len input)) smallInputBufSize /\
  smallInputBuf (req (fst (setInput input st)))
    = splice 0 (bytes_of st input) (smallInputBuf (req st)).
Proof.
  intros Hsmall Hvalid Hlen. unfold setInput.
  replace (len input <? Z.of_nat smallInputBufSize) with true
    by (symmetry; apply Z.ltb_lt; unfold smallInputBufSize; lia).
  cbn [fst]. split; [reflexivity|].
  unfold copy. rewrite Nat.min_r by (rewrite Hvalid; unfold smallInputBufSize; lia).
  rewrite firstn_all. reflexivity.
Qed.

(** X10: after [setInput] of a frame of 16 bytes or more, on the inline
    path and on the owning path alike, the opcode and the unique that
    [inHeader] shows are the little-endian values of the bytes 4 to 7 and
    8 to 15 of the frame that was handed in. *)
Theorem setInput_then_inHeader_reads_the_frame (input : slice) (st : state) :
  List.length (smallInputBuf (req st)) = smallInputBufSize ->
  List.length (bytes_of st input) = Z.to_nat (len input) ->
  16 <= len input ->
  inHeader_Opcode (fst (setInput input st))
    = Returns (le_decode (firstn 4 (skipn 4 (bytes_of st input)))) /\
  inHeader_Unique (fst (setInput input st))
    = Returns (le_decode (firstn 8 (skipn 8 (bytes_of st input)))).
Proof.
  intros Hsmall Hvalid Hlen.
  unfold inHeader_Opcode, inHeader_Unique, inHeader, inData.
  destruct (Z_lt_le_dec (len input) 128) as [Hlt|Hge].
  - destruct (setInput_inline_array input st Hsmall Hvalid Hlt) as [Hib Harr].
    rewrite Hib. cbn [addr0].
    destruct (Z.to_nat (len input) =? 0)%nat eqn:E;
      [apply Nat.eqb_eq in E; lia|].
    cbn [bind]. unfold load_uint.
    assert (Hfit : (0 + List.length (bytes_of st input)
                    <= List.length (smallInputBuf (req st)))%nat)
      by (rewrite Hvalid, Hsmall; unfold smallInputBufSize; lia).
    rewrite !load_Returns
      by (cbn [array_of]; rewrite Harr, splice_length by exact Hfit;
          rewrite Hsmall; unfold smallInputBufSize,
            InHeader_Opcode_offset, InHeader_Unique_offset; lia).
    cbn [array_of bind]. rewrite Harr.
    unfold InHeader_Opcode_offset, InHeader_Unique_offset. cbn [Nat.add].
    rewrite !window_splice_inside by (try exact Hfit; lia).
    split; reflexivity.
  - unfold setInput.
    replace (len input <? Z.of_nat smallInputBufSize) with false
      by (symmetry; apply Z.ltb_ge; unfold smallInputBufSize; lia).
    cbn [fst]. destruct input as [|a o l c]; [cbn [len] in Hlen; lia|].
    cbn [set_bufferPoolInputBuf set_inputBuf with_req req inputBuf addr0].
    cbn [len bytes_of] in *.
    destruct (l =? 0)%nat eqn:E; [apply Nat.eqb_eq in E; lia|].
    cbn [bind]. unfold load_uint.
    set (st' := set_bufferPoolInputBuf _ _).
    assert (Harr : array_of st' a = array_of st a)
      by (destruct a; reflexivity).
    assert (Hroom : (o + l <= List.length (array_of st a))%nat).
    { rewrite length_firstn, length_skipn in Hvalid. lia. }
    rewrite !load_Returns
      by (rewrite Harr;
          unfold InHeader_Opcode_offset, InHeader_Unique_offset; lia).
    rewrite Harr. cbn [bind].
    unfold InHeader_Opcode_offset, InHeader_Unique_offset.
    rewrite !window_of_window by lia.
    rewrite !skipn_skipn. rewrite (Nat.add_comm 4 o), (Nat.add_comm 8 o).
    split; reflexivity.
Qed.

(** X11: a frame of 1 to 4 bytes goes to the inline array, which is not
    wiped: the opcode and the unique that [inHeader] then shows are the
    ones of the bytes that the array held before, at the positions 4 to 7
    and 8 to 15. *)
Theorem truncated_frame_shows_the_header_left_in_the_array
        (input : slice) (st : state) :
  List.length (smallInputBuf (req st)) = smallInputBufSize ->
  List.length (bytes_of st input) = Z.to_nat (len input) ->
  1 <= len input <= 4 ->
  inHeader_Opcode (fst (setInput input st))
    = Returns (le_decode (firstn 4 (skipn 4 (smallInputBuf (req st))))) /\
  inHeader_Unique (fst (setInput input st))
    = Returns (le_decode (firstn 8 (skipn 8 (smallInputBuf (req st))))).
Proof.
  intros Hsmall Hvalid Hlen.
  unfold inHeader_Opcode, inHeader_Unique, inHeader, inData.
  destruct (setInput_inline_array input st Hsmall Hvalid ltac:(lia))
    as [Hib Harr].
  rewrite Hib. cbn [addr0].
  destruct (Z.to_nat (len input) =? 0)%nat eqn:E;
    [apply Nat.eqb_eq in E; lia|].
  cbn [bind]. unfold load_uint.
  assert (Hfit : (0 + List.length (bytes_of st input)
                  <= List.length (smallInputBuf (req st)))%nat)
    by (rewrite Hvalid, Hsmall; unfold smallInputBufSize; lia).
  rewrite !load_Returns
    by (cbn [array_of]; rewrite Harr, splice_length by exact Hfit;
        rewrite Hsmall; unfold smallInputBufSize,
          InHeader_Opcode_offset, InHeader_Unique_offset; lia).
  cbn [array_of bind]. rewrite Harr.
  unfold InHeader_Opcode_offset, InHeader_Unique_offset. cbn [Nat.add].
  rewrite !window_splice_other by (try exact Hfit; lia).
  split; reflexivity.
Qed.

(** X12: a request that took ownership of a large frame, was cleared and
    is then given a small frame: [setInput] returns false, yet
    [bufferPoolInputBuf] is still the first buffer at its full capacity;
    neither [clear] nor the inline path of [setInput] lets go of it. *)
Theorem pool_buffer_outlives_clear_and_small_input
        (st : state) (a : array_id) (o l c : nat) (small : slice) :
  128 <= Z.of_nat l ->
  len small < 128 ->
  let st1 := fst (setInput (Slice a o l c) st) in
  let st2 := with_req clear st1 in
  snd (setInput (Slice a o l c) st) = true /\
  snd (setInput small st2) = false /\
  inputBuf (req st2) = nil_slice /\
  bufferPoolInputBuf (req (fst (setInput small st2))) = Slice a o c c.
Proof.
  intros Hl Hs. cbv zeta.
  assert (E1 : setInput (Slice a o l c) st
               = (set_bufferPoolInputBuf (Slice a o c c)
                    (set_inputBuf (Slice a o l c) st), true)).
  { unfold setInput. cbn [len].
    replace (Z.of_nat l <? Z.of_nat smallInputBufSize) with false
      by (symmetry; apply Z.ltb_ge; unfold smallInputBufSize; lia).
    reflexivity. }
  rewrite E1. cbn [fst snd].
  set (st2 := with_req clear _).
  assert (E2 : setInput small st2
               = (set_inputBuf
                    (Slice SmallInputArr 0 (Z.to_nat (len small))
                           smallInputBufSize)
                    (copy st2
                          (Slice SmallInputArr 0 smallInputBufSize
                                 smallInputBufSize)
                          (bytes_of st2 small)), false)).
  { unfold setInput.
    replace (len small <? Z.of_nat smallInputBufSize) with true
      by (symmetry; apply Z.ltb_lt; unfold smallInputBufSize; lia).
    reflexivity. }
  rewrite E2. cbn [fst snd]. repeat split.
Qed.

End InputEffects.

(* ================================================================= *)
(** * The further properties on concrete frames *)

Section MoreSamples.
#[local] Existing Instance linux_abi.

Lemma parse_keeps_frame_and_payload_witness :
  heap (parsed modern_kernel rename_frame) = heap (arrival rename_frame) /\
  untouched_by_parse (req (parsed modern_kernel rename_frame))
    = untouched_by_parse (req (arrival rename_frame)).
Proof.
  destruct (parse_keeps_frame_and_payload
              modern_kernel (arrival rename_frame)
              (parsed modern_kernel rename_frame))
    as (Hheap & Hunt & _).
  - vm_compute; reflexivity.
  - split; [exact Hheap|exact Hunt].
Defined.

Lemma parse_hands_out_zeroed_outputBuf_witness :
  bytes_of (parsed modern_kernel getattr_frame)
           (outputBuf (req (parsed modern_kernel getattr_frame)))
  = repeat x00 120.
Proof.
  destruct (parse_hands_out_zeroed_outputBuf
              modern_kernel (arrival getattr_frame)
              (parsed modern_kernel getattr_frame) 3
              (mkHandler 56 104 0 false))
    as [Hshort|(_ & _ & Hzero & _)].
  - vm_compute; reflexivity.
  - vm_compute; reflexivity.
  - reflexivity.
  - reflexivity.
  - apply (f_equal (fun s => status (req s))) in Hshort.
    vm_compute in Hshort. discriminate Hshort.
  - exact Hzero.
Defined.

Lemma parse_one_filename_is_arg_without_last_byte_witness :
  exists st',
    parse modern_kernel (arrival lookup_frame) = Returns st' /\
    filenames (req st') = Some ["hello"%string].
Proof.
  destruct (parse_one_filename_is_arg_without_last_byte
              modern_kernel (arrival lookup_frame) 1 (mkHandler 0 128 1 false)
              SmallInputArr 0 46 128 (firstn 40 lookup_frame)
              (list_byte_of_string "hello") x00)
    as (st' & Hp & Hf & _).
  - vm_compute; reflexivity.
  - reflexivity.
  - discriminate.
  - discriminate.
  - reflexivity.
  - reflexivity.
  - lia.
  - vm_compute; reflexivity.
  - reflexivity.
  - reflexivity.
  - discriminate.
  - discriminate.
  - discriminate.
  - reflexivity.
  - exists st'. split; [exact Hp|exact Hf].
Defined.

Lemma parse_several_filenames_split_on_NUL_witness :
  exists st',
    parse modern_kernel (arrival rename_frame) = Returns st' /\
    (exists names, filenames (req st') = Some names /\
                   Z.of_nat (List.length names) = 2) /\
    status (req st') = OK.
Proof.
  destruct (parse_several_filenames_split_on_NUL
              modern_kernel (arrival rename_frame) 12 (mkHandler 48 0 2 false)
              SmallInputArr 0 60 128 (firstn 56 rename_frame)
              (list_byte_of_string "a" ++ [x00] ++ list_byte_of_string "b") x00)
    as (st' & names & Hp & Hf & Hn & _ & Hok & _).
  - vm_compute; reflexivity.
  - reflexivity.
  - discriminate.
  - discriminate.
  - reflexivity.
  - lia.
  - vm_compute; reflexivity.
  - reflexivity.
  - reflexivity.
  - discriminate.
  - discriminate.
  - discriminate.
  - reflexivity.
  - exists st'. split; [exact Hp|]. split.
    + exists names. split; [exact Hf|exact Hn].
    + apply Hok. discriminate.
Defined.

Lemma parse_SETXATTR_without_NUL_takes_whole_arg_witness :
  exists st',
    parse modern_kernel (arrival setxattr_frame_without_NUL) = Returns st' /\
    filenames (req st') = Some ["user.foo"%string] /\
    status (req st') = OK.
Proof.
  destruct (parse_SETXATTR_without_NUL_takes_whole_arg
              modern_kernel (arrival setxattr_frame_without_NUL)
              (mkHandler 48 0 1 false) SmallInputArr 0 56 128
              (firstn 48 setxattr_frame_without_NUL)
              (list_byte_of_string "user.foo"))
    as (st' & Hp & Hf & Hs).
  - vm_compute; reflexivity.
  - reflexivity.
  - discriminate.
  - reflexivity.
  - reflexivity.
  - vm_compute; reflexivity.
  - reflexivity.
  - reflexivity.
  - discriminate.
  - discriminate.
  - discriminate.
  - reflexivity.
  - reflexivity.
  - exists st'. split; [exact Hp|]. split; [exact Hf|exact Hs].
Defined.

Lemma serializeHeader_writes_only_the_header_witness :
  exists st',
    serializeHeader 0 (parsed modern_kernel getattr_frame) = Returns st' /\
    skipn 16 (outBuf (req st'))
      = skipn 16 (outBuf (req (parsed modern_kernel getattr_frame))) /\
    smallInputBuf (req st')
      = smallInputBuf (req (parsed modern_kernel getattr_frame)).
Proof.
  destruct (serializeHeader 0 (parsed modern_kernel getattr_frame))
    as [st'|f] eqn:Hs; [|vm_compute in Hs; discriminate Hs].
  destruct (serializeHeader_writes_only_the_header
              0 (parsed modern_kernel getattr_frame) st' OutBufArr 0 120 160 Hs)
    as (_ & _ & Hother & _ & _ & Hskip).
  - reflexivity.
  - exists st'. split; [reflexivity|]. split.
    + exact Hskip.
    + apply (Hother SmallInputArr). discriminate.
Defined.

Lemma failure_reply_has_no_outData_witness :
  exists st',
    serializeHeader 0 (handler_reply ENODATA nil_slice None
                         (parsed modern_kernel (getxattr_frame 0)))
      = Returns st' /\
    outData st' = Panics IndexOutOfRange.
Proof.
  destruct (serializeHeader 0 (handler_reply ENODATA nil_slice None
                                 (parsed modern_kernel (getxattr_frame 0))))
    as [st'|f] eqn:Hs; [|vm_compute in Hs; discriminate Hs].
  destruct (failure_reply_has_no_outData
              0 (handler_reply ENODATA nil_slice None
                   (parsed modern_kernel (getxattr_frame 0))) st' Hs)
    as [_ Hout].
  - reflexivity.
  - exists st'. split; [reflexivity|exact Hout].
Defined.

Lemma early_return_of_parse_leaves_no_reply_witness :
  exists st1,
    parse modern_kernel (arrival unknown_frame) = Returns st1 /\
    exists f, serializeHeader 0 st1 = Panics f.
Proof.
  destruct (early_return_of_parse_leaves_no_reply
              modern_kernel (arrival unknown_frame) 65535)
    as (st1 & Hp & _ & _ & Hno).
  - reflexivity.
  - vm_compute; reflexivity.
  - left. reflexivity.
  - exists st1. split; [exact Hp|apply Hno].
Defined.


Lemma setInput_then_inHeader_reads_the_frame_witness :
  inHeader_Opcode (fst (setInput (Slice (HeapArr 0) 0 56 56)
                                 (mkState [getattr_frame] new_request)))
    = Returns 3 /\
  inHeader_Unique (fst (setInput (Slice (HeapArr 0) 0 200 200)
                                 (mkState [large_frame] new_request)))
    = Returns 7.
Proof.
  split.
  - destruct (setInput_then_inHeader_reads_the_frame
                (Slice (HeapArr 0) 0 56 56)
                (mkState [getattr_frame] new_request))
      as [Hop _].
    + reflexivity.
    + reflexivity.
    + discriminate.
    + exact Hop.
  - destruct (setInput_then_inHeader_reads_the_frame
                (Slice (HeapArr 0) 0 200 200)
                (mkState [large_frame] new_request))
      as [_ Hu].
    + reflexivity.
    + reflexivity.
    + discriminate.
    + exact Hu.
Defined.

(** A request that held a GETATTR frame and is given 3 bytes still shows
    GETATTR, unique 7. *)
Lemma truncated_frame_shows_the_header_left_in_the_array_witness :
  inHeader_Opcode
    (fst (setInput (Slice (HeapArr 0) 0 3 3)
                   (mkState [[x03; x00; x00]]
                            (clear (req (arrival getattr_frame))))))
    = Returns 3 /\
  inHeader_Unique
    (fst (setInput (Slice (HeapArr 0) 0 3 3)
                   (mkState [[x03; x00; x00]]
                            (clear (req (arrival getattr_frame))))))
    = Returns 7.
Proof.
  destruct (truncated_frame_shows_the_header_left_in_the_array
              (Slice (HeapArr 0) 0 3 3)
              (mkState [[x03; x00; x00]]
                       (clear (req (arrival getattr_frame)))))
    as [Hop Hu].
  - reflexivity.
  - reflexivity.
  - split; discriminate.
  - split; [exact Hop|exact Hu].
Defined.

Lemma pool_buffer_outlives_clear_and_small_input_witness :
  bufferPoolInputBuf
    (req (fst (setInput (Slice (HeapArr 0) 0 56 200)
                 (with_req clear
                    (fst (setInput (Slice (HeapArr 0) 0 200 200)
                                   (mkState [large_frame] new_request)))))))
  = Slice (HeapArr 0) 0 200 200.
Proof.
  destruct (pool_buffer_outlives_clear_and_small_input
              (mkState [large_frame] new_request) (HeapArr 0) 0 200 200
              (Slice (HeapArr 0) 0 56 200))
    as (_ & _ & _ & Hpool).
  - discriminate.
  - reflexivity.
  - exact Hpool.
Defined.

Lemma parse_INIT_on_cleared_request_witness :
  exists st',
    parse modern_kernel (arrival init_frame_short) = Returns st' /\
    status (req st') = OK /\
    arg (req st') = Slice SmallInputArr 56 0 72.
Proof.
  destruct (parse_INIT_on_cleared_request
              modern_kernel (arrival init_frame_short)
              (mkHandler 104 64 0 false) SmallInputArr 0 56 128)
    as (st' & Hp & Hs & Ha).
  - vm_compute; reflexivity.
  - reflexivity.
  - reflexivity.
  - reflexivity.
  - reflexivity.
  - discriminate.
  - reflexivity.
  - discriminate.
  - discriminate.
  - reflexivity.
  - exists st'. split; [exact Hp|]. split; [exact Hs|exact Ha].
Defined.

End MoreSamples.
